(** * Reminder worker of todo-pg: a shallow embedding of
    [src/worker/reminder_worker.py] and the properties of its job queue.

    The worker keeps its queue in the PostgreSQL table [scheduled_reminders].
    The table is a finite map from the row id (the primary key) to the other
    columns; every SQL statement of the worker is one function on that map,
    taking the statement's [now()] as an argument.  Python integers are
    unbounded, so they are [Z].  Timestamps are [Z] counts of microseconds
    (PostgreSQL's resolution); [make_interval(secs => n)] is [n] seconds. *)

From Stdlib Require Import ZArith QArith Lia.
From stdpp Require Import base decidable option list sorting gmap strings pretty numbers fin_maps.

Set Warnings "-register-all".
Local Open Scope Z_scope.

(** ** Configuration (module-level constants read from the environment) *)

Record Config := mkConfig {
  SLACK_BOT_TOKEN : string;
  SLACK_API_BASE : string;
  MAX_BATCH : Z;
  VISIBILITY_TIMEOUT_SECS : Z;
  MAX_RETRIES : Z;
  BACKOFF_BASE_SECS : Z;
  BACKOFF_MAX_SECS : Z
}.

(** The values taken when no environment variable is set, with a token. *)
Definition default_config : Config :=
  {| SLACK_BOT_TOKEN := "xoxb-test";
     SLACK_API_BASE := "https://slack.com/api";
     MAX_BATCH := 10;
     VISIBILITY_TIMEOUT_SECS := 300;
     MAX_RETRIES := 5;
     BACKOFF_BASE_SECS := 60;
     BACKOFF_MAX_SECS := 3600 |}.

(** ** Backoff *)

(** [_seconds_backoff]: [base * 2 ** retry_count], capped.  For a negative
    [retry_count] Python's [**] leaves the integers (it returns a float); the
    embedding is meant for [0 <= retry_count], where [**] is [Z.pow]. *)
Definition _seconds_backoff (cfg : Config) (retry_count : Z) : Z :=
  let secs := BACKOFF_BASE_SECS cfg * (2 ^ retry_count) in
  Z.min secs (BACKOFF_MAX_SECS cfg).

(** ** Results of fallible code

    [Raise e] is a Python exception of class [Exception]; [e] is what
    [str(exc)] gives. *)

Inductive Res (A : Type) : Type :=
| Ok (a : A)
| Raise (e : string).
Arguments Ok {A} a.
Arguments Raise {A} e.

(** ** The queue table [scheduled_reminders] *)

Inductive Status := Pending | Processing | Sent | Failed.

Global Instance Status_eq_dec : EqDecision Status.
Proof. solve_decision. Defined.

(** One row, without its key.  [retry_count] is kept nullable: the schema is
    not part of the worker, and [get_retry_count] guards against [None]. *)
Record Job := mkJob {
  todo_id : Z;
  user_id : Z;
  status : Status;
  scheduled_for : Z;
  visibility_timeout : option Z;
  started_at : option Z;
  posted_at : option Z;
  retry_count : option Z;
  error : option string
}.

(** What [RETURNING s.id, s.todo_id, s.user_id] gives for one row. *)
Record ClaimedRow := mkRow {
  row_id : Z;
  row_todo_id : Z;
  row_user_id : Z
}.

Definition is_terminal (s : Status) : bool :=
  match s with
  | Sent | Failed => true
  | Pending | Processing => false
  end.

(** [make_interval(secs => n)], in microseconds. *)
Definition make_interval (secs : Z) : Z := secs * 1000000.

(** SQL [left(s, n)] for [0 <= n]: the first [n] characters. *)
Fixpoint sql_left (s : string) (n : nat) : string :=
  match n, s with
  | S n', String c s' => String c (sql_left s' n')
  | _, _ => EmptyString
  end.

(** SQL [x + 1] on a nullable integer. *)
Definition sql_succ (x : option Z) : option Z := (fun c => c + 1) <$> x.

(** *** [claim_jobs] *)

(** The [WHERE] clause of the CTE. *)
Definition eligible (now : Z) (j : Job) : bool :=
  bool_decide (status j = Pending)
  && (scheduled_for j <=? now)
  && match visibility_timeout j with
     | None => true
     | Some v => v <=? now
     end.

(** The same condition in the words of the specification: pending, due, and
    under no lease that still runs. *)
Definition claimable (now : Z) (j : Job) : Prop :=
  status j = Pending
  /\ scheduled_for j <= now
  /\ (visibility_timeout j = None
      \/ exists v, visibility_timeout j = Some v /\ v <= now).

(** [ORDER BY scheduled_for ASC]. *)
Definition due_before (a b : Z * Job) : Prop :=
  scheduled_for a.2 <= scheduled_for b.2.

Global Instance due_before_dec a b : Decision (due_before a b).
Proof. unfold due_before. apply _. Defined.

(** What the statement leaves to the executor.  [ORDER BY scheduled_for]
    does not say which of two rows due at the same time comes first; and
    [RETURNING] has no [ORDER BY] (the one of the statement is inside the
    CTE), so the updated rows come back in the order of the join.  Both
    choices are given by a rank on the row ids: any order can be had. *)
Record Plan := mkPlan {
  scan_rank : Z -> Z;
  returning_rank : Z -> Z
}.

Definition by_rank (rank : Z -> Z) (a b : Z * Job) : Prop := rank a.1 <= rank b.1.

Global Instance by_rank_dec rank a b : Decision (by_rank rank a b).
Proof. unfold by_rank. apply _. Defined.

(** [ORDER BY scheduled_for ASC] as the executor carries it out: rows due at
    the same time in the order of their scan rank. *)
Definition due_order (rank : Z -> Z) (a b : Z * Job) : Prop :=
  scheduled_for a.2 < scheduled_for b.2
  \/ (scheduled_for a.2 = scheduled_for b.2 /\ rank a.1 <= rank b.1).

Global Instance due_order_dec rank a b : Decision (due_order rank a b).
Proof. unfold due_order. apply _. Defined.

(** The CTE: eligible rows, those locked by another transaction skipped
    ([FOR UPDATE SKIP LOCKED]), earliest first, at most [limit] of them. *)
Definition claim_cte (locked : Z -> bool) (plan : Plan) (now limit : Z)
    (st : gmap Z Job) : list (Z * Job) :=
  take (Z.to_nat limit)
    (merge_sort (due_order (scan_rank plan))
       (filter (fun r => eligible now r.2 && negb (locked r.1)) (map_to_list st))).

(** The [SET] clause of the claiming [UPDATE]. *)
Definition claim_row (cfg : Config) (now : Z) (j : Job) : Job :=
  {| todo_id := todo_id j;
     user_id := user_id j;
     status := Processing;
     scheduled_for := scheduled_for j;
     visibility_timeout := Some (now + make_interval (VISIBILITY_TIMEOUT_SECS cfg));
     started_at := Some now;
     posted_at := posted_at j;
     retry_count := retry_count j;
     error := error j |}.

(** The whole statement: every row whose id is in the CTE is updated, and
    returned, in the order of the plan and not in that of the CTE.
    PostgreSQL rejects a negative [LIMIT]. *)
Definition claim_jobs (cfg : Config) (locked : Z -> bool) (plan : Plan) (now limit : Z)
    (st : gmap Z Job) : Res (list ClaimedRow * gmap Z Job) :=
  if limit <? 0 then Raise "LIMIT must not be negative"
  else
    let cte := claim_cte locked plan now limit st in
    let ids := cte.*1 in
    Ok ((fun r => mkRow r.1 (todo_id r.2) (user_id r.2))
          <$> merge_sort (by_rank (returning_rank plan)) cte,
        map_imap (fun i j => Some (if bool_decide (i ∈ ids) then claim_row cfg now j else j)) st).

(** *** [mark_sent] *)

Definition sent_row (now : Z) (j : Job) : Job :=
  {| todo_id := todo_id j;
     user_id := user_id j;
     status := Sent;
     scheduled_for := scheduled_for j;
     visibility_timeout := None;
     started_at := started_at j;
     posted_at := Some now;
     retry_count := retry_count j;
     error := None |}.

Definition mark_sent (now reminder_id : Z) (st : gmap Z Job) : gmap Z Job :=
  alter (sent_row now) reminder_id st.

(** *** [requeue_with_backoff] *)

(** First [UPDATE]: retries exhausted. *)
Definition failed_row (error_msg : string) (j : Job) : Job :=
  {| todo_id := todo_id j;
     user_id := user_id j;
     status := Failed;
     scheduled_for := scheduled_for j;
     visibility_timeout := None;
     started_at := started_at j;
     posted_at := None;
     retry_count := sql_succ (retry_count j);
     error := Some (sql_left error_msg 512) |}.

(** Second [UPDATE]: back to the queue, [delay_secs] from now. *)
Definition retry_row (now delay_secs : Z) (error_msg : string) (j : Job) : Job :=
  {| todo_id := todo_id j;
     user_id := user_id j;
     status := Pending;
     scheduled_for := now + make_interval delay_secs;
     visibility_timeout := None;
     started_at := None;
     posted_at := posted_at j;
     retry_count := sql_succ (retry_count j);
     error := Some (sql_left error_msg 512) |}.

Definition requeue_with_backoff (cfg : Config) (now reminder_id current_retry : Z)
    (error_msg : string) (st : gmap Z Job) : gmap Z Job :=
  let next_retry := current_retry + 1 in
  if next_retry >=? MAX_RETRIES cfg then
    alter (failed_row error_msg) reminder_id st
  else
    let delay_secs := _seconds_backoff cfg next_retry in
    alter (retry_row now delay_secs error_msg) reminder_id st.

(** *** [get_retry_count] *)

(** [fetchval]: the first column of the first row, [None] when there is no
    row or the value is NULL. *)
Definition fetchval_retry_count (reminder_id : Z) (st : gmap Z Job) : option Z :=
  st !! reminder_id ≫= retry_count.

(** [int(val or 0)]: [None] and [0] are both falsy. *)
Definition get_retry_count (reminder_id : Z) (st : gmap Z Job) : Z :=
  match fetchval_retry_count reminder_id st with
  | Some v => if v =? 0 then 0 else v
  | None => 0
  end.

(** ** Python values read from JSON *)

Inductive json :=
| JNull
| JBool (b : bool)
| JInt (z : Z)
| JFloat (q : Q)
| JStr (s : string)
| JArr (items : list json)
| JObj (members : list (string * json)).

(** Python truthiness: [None], [False], zero and empty containers are falsy. *)
Definition truthy (v : json) : bool :=
  match v with
  | JNull => false
  | JBool b => b
  | JInt z => negb (z =? 0)
  | JFloat q => negb (Qnum q =? 0)
  | JStr "" => false
  | JStr _ => true
  | JArr [] => false
  | JArr _ => true
  | JObj [] => false
  | JObj _ => true
  end.

(** [type(v).__name__]. *)
Definition type_name (v : json) : string :=
  match v with
  | JNull => "NoneType"
  | JBool _ => "bool"
  | JInt _ => "int"
  | JFloat _ => "float"
  | JStr _ => "str"
  | JArr _ => "list"
  | JObj _ => "dict"
  end.

(** [d.get(key)] on the members of a dict, [None] for a missing key. *)
Fixpoint dict_get (members : list (string * json)) (key : string) : json :=
  match members with
  | [] => JNull
  | (k, v) :: rest => if bool_decide (k = key) then v else dict_get rest key
  end.

Definition has_key (members : list (string * json)) (key : string) : bool :=
  bool_decide (key ∈ members.*1).

(** ** Dates: [datetime.astimezone(timezone.utc)] and [strftime] *)

(** A datetime with its offset from UTC in seconds (for a naive value, the
    offset of the system's zone, which is what [astimezone] takes). *)
Record datetime := mkDatetime {
  dt_year : Z;
  dt_month : Z;
  dt_day : Z;
  dt_hour : Z;
  dt_minute : Z;
  dt_second : Z;
  dt_utcoffset : Z
}.

Definition is_leap (y : Z) : bool :=
  (y mod 4 =? 0) && (negb (y mod 100 =? 0) || (y mod 400 =? 0)).

Definition days_in_month (y m : Z) : Z :=
  if m =? 2 then (if is_leap y then 29 else 28)
  else if (m =? 4) || (m =? 6) || (m =? 9) || (m =? 11) then 30
  else 31.

Definition days_before_year (y : Z) : Z :=
  let p := y - 1 in p * 365 + p / 4 - p / 100 + p / 400.

Definition days_before_month (y m : Z) : Z :=
  foldr Z.add 0 (map (days_in_month y) (seqZ 1 (m - 1))).

(** Day number of a date, 1 for 0001-01-01. *)
Definition ymd2ord (y m d : Z) : Z :=
  days_before_year y + days_before_month y m + d.

(** The date of a day number. *)
Definition ord2ymd (ord : Z) : Z * Z * Z :=
  let n := ord - 1 in
  let n400 := n / 146097 in
  let n := n mod 146097 in
  let n100 := n / 36524 in
  let n := n mod 36524 in
  let n4 := n / 1461 in
  let n := n mod 1461 in
  let n1 := n / 365 in
  let n := n mod 365 in
  let year := n400 * 400 + 1 + n100 * 100 + n4 * 4 + n1 in
  if (n1 =? 4) || (n100 =? 4) then (year - 1, 12, 31)
  else
    let month := (n + 50) / 32 in
    let preceding := days_before_month year month in
    if preceding >? n then
      (year, month - 1, n - (preceding - days_in_month year (month - 1)) + 1)
    else (year, month, n - preceding + 1).

(** The UTC fields year, month, day, hour, minute of a datetime; out of the
    years 1..9999 the subtraction of the offset overflows. *)
Definition astimezone_utc (d : datetime) : Res (Z * Z * Z * Z * Z) :=
  let secs := dt_hour d * 3600 + dt_minute d * 60 + dt_second d - dt_utcoffset d in
  let ord := ymd2ord (dt_year d) (dt_month d) (dt_day d) + secs / 86400 in
  let rest := secs mod 86400 in
  if (0 <? ord) && (ord <=? 3652059) then
    let '(y, m, dd) := ord2ymd ord in
    Ok (y, m, dd, rest / 3600, rest mod 3600 / 60)
  else Raise "date value out of range".

(** One decimal digit. *)
Definition digit (n : Z) : string :=
  String (Ascii.ascii_of_nat (48 + Z.to_nat (n mod 10))) "".

Definition pad2 (n : Z) : string := digit (n / 10) +:+ digit n.

Definition pad4 (n : Z) : string := pad2 (n / 100) +:+ pad2 n.

(** [strftime("%Y-%m-%d %H:%M UTC")] on the UTC fields (years of four digits). *)
Definition strftime_utc (f : Z * Z * Z * Z * Z) : string :=
  let '(y, m, d, hh, mm) := f in
  pad4 y +:+ "-" +:+ pad2 m +:+ "-" +:+ pad2 d +:+ " " +:+ pad2 hh +:+ ":" +:+ pad2 mm +:+ " UTC".

(** ** The tables joined at delivery time *)

(** The [payload] column as the driver hands it over: NULL, or a JSON text,
    which is represented by what [json.loads] makes of it ([None] when it
    raises). *)
Inductive PayloadCol :=
| PayloadNull
| PayloadText (loads : option json).

Record Todo := mkTodo {
  description : string;
  due_date : option datetime;
  payload : PayloadCol
}.

Record User := mkUser {
  slack_channel : option string
}.

(** The dict built by [fetch_job_details]. *)
Record Details := mkDetails {
  d_reminder_id : Z;
  d_todo_id : Z;
  d_description : string;
  d_due_date : option datetime;
  d_payload : json;
  d_user_id : Z;
  d_slack_channel : option string
}.

(** [fetch_job_details]: the row joined to its todo and its user, [None]
    when the join is empty; a payload text is parsed, a bad one dropped. *)
Definition fetch_job_details (reminder_id : Z) (jobs : gmap Z Job)
    (todos : gmap Z Todo) (users : gmap Z User) : option Details :=
  s ← jobs !! reminder_id;
  t ← todos !! todo_id s;
  u ← users !! user_id s;
  let payload :=
    match payload t with
    | PayloadNull => JNull
    | PayloadText (Some v) => v
    | PayloadText None => JNull
    end in
  Some {| d_reminder_id := reminder_id;
          d_todo_id := todo_id s;
          d_description := description t;
          d_due_date := due_date t;
          d_payload := payload;
          d_user_id := user_id s;
          d_slack_channel := slack_channel u |}.

(** ** Rendering and delivery *)

Definition newline : string := String (Ascii.ascii_of_nat 10) "".

(** The characters of a string, as [str.join] iterates over them. *)
Fixpoint chars (s : string) : list string :=
  match s with
  | EmptyString => []
  | String c rest => String c "" :: chars rest
  end.

(** What the HTTP client gives for one request: it raises (timeout, no
    connection), or a response with its status code and what [resp.json()]
    makes of the body ([Raise] when the body is not JSON). *)
Inductive HttpOutcome :=
| HttpRaise (e : string)
| HttpResponse (status_code : Z) (body : Res json).

Section Python.

(** [repr] of a value that is not a string; the worker only pastes its
    result into messages. *)
Variable py_repr : json -> string.

(** [str(v)], as an f-string formats a value. *)
Definition py_str (v : json) : string :=
  match v with
  | JStr s => s
  | _ => py_repr v
  end.

(** The items of [', '.join(tags)]: a list of strings, the characters of a
    string or the keys of a dict; anything else is a [TypeError]. *)
Fixpoint str_items (i : nat) (items : list json) : Res (list string) :=
  match items with
  | [] => Ok []
  | JStr s :: rest =>
      match str_items (S i) rest with
      | Ok l => Ok (s :: l)
      | Raise e => Raise e
      end
  | v :: _ =>
      Raise ("sequence item " +:+ pretty i +:+ ": expected str instance, "
             +:+ type_name v +:+ " found")
  end.

Definition join_tags (tags : json) : Res string :=
  match tags with
  | JArr items =>
      match str_items 0 items with
      | Ok l => Ok (String.concat ", " l)
      | Raise e => Raise e
      end
  | JStr s => Ok (String.concat ", " (chars s))
  | JObj members => Ok (String.concat ", " (members.*1))
  | _ => Raise "can only join an iterable"
  end.

(** [due_text]. *)
Definition due_text (due : option datetime) : Res string :=
  match due with
  | Some d =>
      match astimezone_utc d with
      | Ok f => Ok (strftime_utc f)
      | Raise e => Raise e
      end
  | None => Ok "None"
  end.

(** [job.get("payload") or {}]. *)
Definition payload_or_empty (p : json) : json :=
  if truthy p then p else JObj [].

(** [payload.get(key) if isinstance(payload, dict) else None]. *)
Definition payload_field (p : json) (key : string) : json :=
  match p with
  | JObj members => dict_get members key
  | _ => JNull
  end.

(** A field of the payload of a snapshot, as [_format_message] reads it. *)
Definition job_field (job : Details) (key : string) : json :=
  payload_field (payload_or_empty (d_payload job)) key.

(** The list [lines] of [_format_message] at its [return]. *)
Definition message_lines (job : Details) : Res (list string) :=
  match due_text (d_due_date job) with
  | Raise e => Raise e
  | Ok due =>
      let lines :=
        [ "📌 Todo Reminder";
          "• Description: " +:+ d_description job;
          "• Due: " +:+ due ] in
      let tags := job_field job "tags" in
      let priority := job_field job "priority" in
      let notes := job_field job "notes" in
      match (if truthy tags then
               match join_tags tags with
               | Ok t => Ok (lines ++ ["• Tags: " +:+ t])
               | Raise e => Raise e
               end
             else Ok lines) with
      | Raise e => Raise e
      | Ok lines =>
          let lines :=
            if truthy priority then lines ++ ["• Priority: " +:+ py_str priority]
            else lines in
          let lines :=
            if truthy notes then lines ++ ["• Notes: " +:+ py_str notes]
            else lines in
          Ok lines
      end
  end.

Definition _format_message (job : Details) : Res string :=
  match message_lines job with
  | Ok lines => Ok (String.concat newline lines)
  | Raise e => Raise e
  end.

(** The part of [post_to_slack] after the request: the body is decoded and
    its [ok] member tested. *)
Definition check_ack (out : HttpOutcome) : Res unit :=
  match out with
  | HttpRaise e => Raise e
  | HttpResponse _ (Raise e) => Raise e
  | HttpResponse _ (Ok data) =>
      match data with
      | JObj members =>
          if truthy (dict_get members "ok") then Ok tt
          else Raise ("Slack API error: " +:+ py_repr data)
      | _ => Raise ("'" +:+ type_name data +:+ "' object has no attribute 'get'")
      end
  end.

End Python.

(** ** The worker's effects

    The worker's calls go to the database and to Slack.  [World] is what
    they read and change; [Env] is what the worker does not decide: the
    clock of each statement, the rows other transactions hold locked, the
    plan of each claim, the round trips that raise, the answers of Slack.  Each call takes the next
    tick, so an [Env] fixes one run.  A round trip that raises leaves the
    tables as they were, and between two calls of this worker nothing else
    writes to them. *)

Record World := mkWorld {
  jobs : gmap Z Job;
  todos : gmap Z Todo;
  users : gmap Z User;
  outbox : list (string * string);
  tick : nat
}.

Record Env := mkEnv {
  now_at : nat -> Z;
  locked_at : nat -> Z -> bool;
  plan_at : nat -> Plan;
  db_fault : nat -> option string;
  http_at : nat -> HttpOutcome
}.

Definition M (A : Type) : Type := Env -> World -> Res A * World.

Definition ret {A} (a : A) : M A := fun _ w => (Ok a, w).

Definition raise {A} (e : string) : M A := fun _ w => (Raise e, w).

Definition bind {A B} (m : M A) (k : A -> M B) : M B :=
  fun env w =>
    match m env w with
    | (Ok a, w') => k a env w'
    | (Raise e, w') => (Raise e, w')
    end.

(** [try: body / except Exception as exc: handler exc]. *)
Definition try_except {A} (body : M A) (handler : string -> M A) : M A :=
  fun env w =>
    match body env w with
    | (Ok a, w') => (Ok a, w')
    | (Raise e, w') => handler e env w'
    end.

Definition lift {A} (r : Res A) : M A := fun _ w => (r, w).

Declare Scope worker_scope.
Delimit Scope worker_scope with worker.
Notation "'let!' x ':=' m 'in' k" := (bind m (fun x => k))
  (at level 10, x name, m at level 100, k at level 200)
  : worker_scope.
Notation "'run!' m 'in' k" := (bind m (fun _ => k))
  (at level 10, m at level 100, k at level 200)
  : worker_scope.

Definition set_jobs (w : World) (js : gmap Z Job) : World :=
  {| jobs := js; todos := todos w; users := users w; outbox := outbox w; tick := tick w |}.

Definition next_tick (w : World) : World :=
  {| jobs := jobs w; todos := todos w; users := users w; outbox := outbox w;
     tick := S (tick w) |}.

Definition log_post (w : World) (channel text : string) : World :=
  {| jobs := jobs w; todos := todos w; users := users w;
     outbox := outbox w ++ [(channel, text)]; tick := tick w |}.

(** One [async with pool.acquire()] block: the connection is taken, the
    search path set and the statement run at the clock of this tick, unless
    the round trip raises. *)
Definition db_round_trip {A} (stmt : Env -> nat -> World -> Res A * World) : M A :=
  fun env w =>
    match db_fault env (tick w) with
    | Some e => (Raise e, next_tick w)
    | None => stmt env (tick w) (next_tick w)
    end.

(** The loop [for row in claimed: ...]; an exception leaving the body ends it. *)
Fixpoint for_each {A} (body : A -> M unit) (l : list A) : M unit :=
  match l with
  | [] => ret tt
  | x :: rest => bind (body x) (fun _ => for_each body rest)
  end.

Section Worker.

Variable cfg : Config.
Variable py_repr : json -> string.

Local Open Scope worker_scope.

Definition claim_jobs_io (limit : Z) : M (list ClaimedRow) :=
  db_round_trip (fun env t w =>
    match claim_jobs cfg (locked_at env t) (plan_at env t) (now_at env t) limit (jobs w) with
    | Ok (rows, js) => (Ok rows, set_jobs w js)
    | Raise e => (Raise e, w)
    end).

Definition fetch_job_details_io (reminder_id : Z) : M (option Details) :=
  db_round_trip (fun _ _ w =>
    (Ok (fetch_job_details reminder_id (jobs w) (todos w) (users w)), w)).

Definition mark_sent_io (reminder_id : Z) : M unit :=
  db_round_trip (fun env t w =>
    (Ok tt, set_jobs w (mark_sent (now_at env t) reminder_id (jobs w)))).

Definition requeue_with_backoff_io (reminder_id current_retry : Z)
    (error_msg : string) : M unit :=
  db_round_trip (fun env t w =>
    (Ok tt, set_jobs w (requeue_with_backoff cfg (now_at env t) reminder_id
                          current_retry error_msg (jobs w)))).

Definition get_retry_count_io (reminder_id : Z) : M Z :=
  db_round_trip (fun _ _ w => (Ok (get_retry_count reminder_id (jobs w)), w)).

(** [post_to_slack]: no request without a token; otherwise one request,
    whose answer [check_ack] reads. *)
Definition post_to_slack (channel text : string) : M unit :=
  match SLACK_BOT_TOKEN cfg with
  | EmptyString => raise "SLACK_BOT_TOKEN is not configured"
  | _ =>
      fun env w =>
        (check_ack py_repr (http_at env (tick w)),
         next_tick (log_post w channel text))
  end.

(** The [try] block of [process_batch] for the job [reminder_id]. *)
Definition attempt_job (reminder_id : Z) : M unit :=
  let! details := fetch_job_details_io reminder_id in
  match details with
  | None =>
      let! r := get_retry_count_io reminder_id in
      requeue_with_backoff_io reminder_id r "Missing job details"
  | Some details =>
      match d_slack_channel details with
      | None | Some EmptyString =>
          let! r := get_retry_count_io reminder_id in
          requeue_with_backoff_io reminder_id r "Missing slack_channel"
      | Some channel =>
          let! text := lift (_format_message py_repr details) in
          run! post_to_slack channel text in
          mark_sent_io reminder_id
      end
  end.

(** The [except Exception as exc] block: re-queue with [str(exc)], and
    swallow whatever that raises. *)
Definition handle_failure (reminder_id : Z) (exc : string) : M unit :=
  try_except
    (let! current_retry := get_retry_count_io reminder_id in
     requeue_with_backoff_io reminder_id current_retry exc)
    (fun _ => ret tt).

(** The body of the loop of [process_batch] for one claimed row. *)
Definition process_job (row : ClaimedRow) : M unit :=
  let reminder_id := row_id row in
  try_except (attempt_job reminder_id) (handle_failure reminder_id).

Definition process_batch : M Z :=
  let! claimed := claim_jobs_io (MAX_BATCH cfg) in
  match claimed with
  | [] => ret 0
  | _ =>
      run! for_each process_job claimed in
      ret (Z.of_nat (length claimed))
  end.

End Worker.

(** The state after one call of [process_batch], and after one call per
    environment of a list: the dispatch loop, batch after batch. *)
Definition after_batch (cfg : Config) (py_repr : json -> string) (w : World) (env : Env)
  : World :=
  (process_batch cfg py_repr env w).2.

Definition after_batches (cfg : Config) (py_repr : json -> string) (envs : list Env)
    (w : World) : World :=
  foldl (after_batch cfg py_repr) w envs.

(** ** The dispatch loop of [main]

    The poll interval is a Python float.  Its arithmetic is left open: [F]
    stands for the floats, [mul_1_5 x] for [x * 1.5], [flt] for [<] and [fne]
    for [!=]; the three [POLL_INTERVAL_*] constants are floats read from the
    environment.  Whether an iteration was woken by a notification or by the
    timeout is an input, [notified]. *)

Record Polling (F : Type) := mkPolling {
  current_poll_interval : F;
  consecutive_empty_batches : Z
}.
Arguments mkPolling {F} _ _.
Arguments current_poll_interval {F} _.
Arguments consecutive_empty_batches {F} _.

Section DispatchLoop.

Variable cfg : Config.
Variable py_repr : json -> string.
Variable F : Type.
Variables POLL_INTERVAL_SECS POLL_INTERVAL_MIN_SECS POLL_INTERVAL_MAX_SECS : F.
Variable mul_1_5 : F -> F.
Variable flt : F -> F -> bool.
Variable fne : F -> F -> bool.

(** [min(a, b)]: the first argument, unless the second is smaller. *)
Definition py_min (a b : F) : F := if flt b a then b else a.

(** The variables of the loop before its first iteration. *)
Definition initial_polling : Polling F := mkPolling POLL_INTERVAL_SECS 0.

(** After [wait_for]: a notification resets the loop's variables, a timeout
    leaves them. *)
Definition after_wait (notified : bool) (s : Polling F) : Polling F :=
  if notified then mkPolling POLL_INTERVAL_MIN_SECS 0 else s.

(** The adjustment after [process_batch] returned [processed]. *)
Definition adjust_polling (processed : Z) (s : Polling F) : Polling F :=
  if processed =? 0 then
    let empties := consecutive_empty_batches s + 1 in
    if empties >=? 2 then
      let new_interval := py_min (mul_1_5 (current_poll_interval s)) POLL_INTERVAL_MAX_SECS in
      if fne new_interval (current_poll_interval s) then mkPolling new_interval empties
      else mkPolling (current_poll_interval s) empties
    else mkPolling (current_poll_interval s) empties
  else mkPolling POLL_INTERVAL_MIN_SECS 0.

(** One iteration of [while True]; [process_batch] stands outside any [try].
    The closing [if processed >= MAX_BATCH: continue] is the last statement
    of the body, so it changes nothing and has no counterpart here. *)
Definition main_iteration (notified : bool) (s : Polling F) : M (Polling F) :=
  let s := after_wait notified s in
  bind (process_batch cfg py_repr) (fun processed => ret (adjust_polling processed s)).

(** The iterations for a list of waits, until one raises. *)
Fixpoint main_loop (waits : list bool) (s : Polling F) : M (Polling F) :=
  match waits with
  | [] => ret s
  | notified :: rest => bind (main_iteration notified s) (main_loop rest)
  end.

End DispatchLoop.

(** ** Start-up: [_create_pool_with_retry]

    [attempts k] is what the call number [k] of [create_pool] gives.  The
    loop has no bound of its own; [fuel] bounds the calls that are followed.
    The result is the pool with the list of the delays slept, in order. *)
Fixpoint retry_create_pool {Pool} (attempts : nat -> Res Pool) (fuel k : nat) (delay : Z)
    (slept : list Z) : option (Pool * list Z) :=
  match fuel with
  | O => None
  | S fuel' =>
      match attempts k with
      | Ok pool => Some (pool, slept)
      | Raise _ =>
          retry_create_pool attempts fuel' (S k) (Z.min (delay * 2) 30) (slept ++ [delay])
      end
  end.

Definition _create_pool_with_retry {Pool} (attempts : nat -> Res Pool) (fuel : nat)
  : option (Pool * list Z) :=
  retry_create_pool attempts fuel 0 1 [].

(** ** Footprint of a computation

    [keeps P m]: whatever [m] does and however it ends, the rows whose id
    satisfies [P] are afterwards what they were. *)
Definition keeps (P : Z -> Prop) {A} (m : M A) : Prop :=
  forall env w r w', m env w = (r, w') ->
    forall id, P id -> jobs w' !! id = jobs w !! id.

(** ** What may change between two states of the queue

    [job_advances j j']: the row still belongs to the same todo and user and
    its retry count has not gone down (a NULL count stays NULL).
    [queue_advances st st']: the two tables have the same ids, and every row
    has advanced. *)
Definition count_le (a b : option Z) : Prop :=
  match a, b with
  | Some x, Some y => x <= y
  | None, None => True
  | _, _ => False
  end.

Definition job_advances (j j' : Job) : Prop :=
  todo_id j' = todo_id j /\ user_id j' = user_id j
  /\ count_le (retry_count j) (retry_count j').

Definition queue_advances (st st' : gmap Z Job) : Prop :=
  forall id,
    match st !! id, st' !! id with
    | Some j, Some j' => job_advances j j'
    | None, None => True
    | _, _ => False
    end.

(** [transforms R m]: however [m] runs and ends, the worlds before and
    after it are related by [R]. *)
Definition transforms (R : World -> World -> Prop) {A} (m : M A) : Prop :=
  forall env w r w', m env w = (r, w') -> R w w'.

(** At most [n] requests to Slack were added to the outbox, and none removed. *)
Definition posted_at_most (n : nat) (w w' : World) : Prop :=
  exists new, outbox w' = outbox w ++ new /\ (length new <= n)%nat.

(** ** Processing cycles that fail

    One cycle of the job [id], seen from its row: a [claim_jobs] that returns
    it, a delivery attempt that fails with text [c_error], and the
    [requeue_with_backoff] that [process_batch] then makes with the count
    [get_retry_count] reads.  [None] when the claim does not return the job. *)

Record Cycle := mkCycle {
  c_locked : Z -> bool;
  c_plan : Plan;
  c_claimed_at : Z;
  c_limit : Z;
  c_failed_at : Z;
  c_error : string
}.

Definition failing_cycle (cfg : Config) (id : Z) (c : Cycle) (st : gmap Z Job)
  : option (gmap Z Job) :=
  match claim_jobs cfg (c_locked c) (c_plan c) (c_claimed_at c) (c_limit c) st with
  | Ok (rows, claimed) =>
      if bool_decide (id ∈ row_id <$> rows) then
        Some (requeue_with_backoff cfg (c_failed_at c) id
                (get_retry_count id claimed) (c_error c) claimed)
      else None
  | Raise _ => None
  end.

Fixpoint failing_cycles (cfg : Config) (id : Z) (cs : list Cycle) (st : gmap Z Job)
  : option (gmap Z Job) :=
  match cs with
  | [] => Some st
  | c :: rest => failing_cycle cfg id c st ≫= failing_cycles cfg id rest
  end.

(** ** Sample data *)

Module Sample.

(** A queue of five rows: two due, one due later, one sent, one under a
    lease that has not run out. *)
Definition due_late : Job := mkJob 11 1 Pending 500 None None None (Some 0) None.
Definition due_early : Job := mkJob 12 1 Pending 200 (Some 300) None None (Some 1) None.
Definition not_due : Job := mkJob 13 2 Pending 9000 None None None (Some 0) None.
Definition done : Job := mkJob 14 2 Sent 100 None (Some 150) (Some 160) (Some 0) None.
Definition leased : Job := mkJob 15 2 Pending 100 (Some 5000) None None (Some 0) None.

Definition queue : gmap Z Job :=
  <[1 := due_late]> (<[2 := due_early]> (<[3 := not_due]> (<[4 := done]> (<[5 := leased]> ∅)))).

Definition unlocked : Z -> bool := fun _ => false.

(** Two plans: ties broken and rows returned by ascending id, and by
    descending id. *)
Definition by_id : Plan := mkPlan (fun i => i) (fun i => i).

Definition by_id_desc : Plan := mkPlan (fun i => - i) (fun i => - i).

(** The ids of the rows a claim returned, in the order returned. *)
Definition claimed_ids (r : Res (list ClaimedRow * gmap Z Job)) : list Z :=
  match r with
  | Ok (rows, _) => row_id <$> rows
  | Raise _ => []
  end.

(** The snapshot of the specification's rendering example, and variants. *)
Definition report_due : datetime := mkDatetime 2024 1 15 10 0 0 0.

Definition report (p : json) : Details :=
  mkDetails 1 11 "Submit report" (Some report_due) p 1 (Some "C042").

Definition tagged : json :=
  JObj [("tags", JArr [JStr "work"; JStr "urgent"]); ("priority", JStr "high")].

(** [repr] is not needed where every formatted value is a string. *)
Definition no_repr : json -> string := fun _ => "?".

Definition present_but_falsy : list (string * json) :=
  [("tags", JArr []); ("priority", JInt 0); ("notes", JStr "")].

(** A world around [queue]: the todo of job 2 is [report]'s, job 1 has no
    todo; the clock shows 1000; no round trip fails. *)
Definition world : World :=
  {| jobs := queue;
     todos := <[12 := mkTodo "Submit report" (Some report_due) PayloadNull]> ∅;
     users := <[1 := mkUser (Some "C042")]> (<[2 := mkUser None]> ∅);
     outbox := [];
     tick := 0 |}.

(** A job left in [processing] long ago, its lease long run out. *)
Definition stale : Job := mkJob 12 1 Processing 100 (Some 400) (Some 100) None (Some 0) None.

Definition stale_world : World :=
  {| jobs := <[6 := stale]> queue;
     todos := todos world;
     users := users world;
     outbox := [];
     tick := 0 |}.

Definition env_of (answer : HttpOutcome) : Env :=
  {| now_at := fun _ => 1000;
     locked_at := fun _ _ => false;
     plan_at := fun _ => by_id;
     db_fault := fun _ => None;
     http_at := fun _ => answer |}.

(** An environment in which no round trip to the database goes through. *)
Definition db_down : Env :=
  {| now_at := fun _ => 1000;
     locked_at := fun _ _ => false;
     plan_at := fun _ => by_id;
     db_fault := fun _ => Some "connection is closed";
     http_at := fun _ => HttpRaise "unreachable" |}.

(** Poll intervals as rationals, for runs of the dispatch loop. *)
Definition q_lt (a b : Q) : bool := negb (Qle_bool b a).

Definition q_ne (a b : Q) : bool := negb (Qeq_bool a b).

Definition q_mul_1_5 (a : Q) : Q := Qmult a (3 # 2).

(** [create_pool] fails three times, then gives pool 7. *)
Definition third_time_lucky (k : nat) : Res nat :=
  if (k <? 3)%nat then Raise "connection refused" else Ok 7%nat.

(** An environment in which the database answers twice and is then gone,
    and Slack cannot be reached. *)
Definition db_drops : Env :=
  {| now_at := fun _ => 1000;
     locked_at := fun _ _ => false;
     plan_at := fun _ => by_id;
     db_fault := fun t => if (t <? 2)%nat then None else Some "connection is closed";
     http_at := fun _ => HttpRaise "timed out" |}.

(** A queue that holds the stale job only. *)
Definition stale_only : World :=
  {| jobs := <[6 := stale]> ∅; todos := ∅; users := ∅; outbox := []; tick := 0 |}.

Definition ack_ok : json := JObj [("ok", JBool true)].

Definition ack_not_ok : json := JObj [("ok", JBool false); ("error", JStr "channel_not_found")].

(** One job, and five cycles far enough apart for each backoff to pass. *)
Definition lone : gmap Z Job := <[1 := due_late]> ∅.

Definition cycle_at (k : Z) (e : string) : Cycle :=
  mkCycle unlocked by_id (k * 10000000000) 10 (k * 10000000000 + 7) e.

Definition five_failures : list Cycle :=
  [cycle_at 1 "timeout"; cycle_at 2 "timeout"; cycle_at 3 "Slack API error";
   cycle_at 4 "timeout"; cycle_at 5 "channel_not_found"].

Definition exhausted : Job :=
  mkJob 11 1 Failed 40960000007 None (Some 50000000000) None (Some 5)
    (Some "channel_not_found").

Definition lone_exhausted : gmap Z Job := <[1 := exhausted]> ∅.

End Sample.
(** * Properties *)

(** ** Backoff *)

Section Backoff.

Variable cfg : Config.

Lemma backoff_unfold r :
  _seconds_backoff cfg r = Z.min (BACKOFF_BASE_SECS cfg * 2 ^ r) (BACKOFF_MAX_SECS cfg).
Proof. reflexivity. Qed.

Lemma backoff_le_cap r : _seconds_backoff cfg r <= BACKOFF_MAX_SECS cfg.
Proof. rewrite backoff_unfold. apply Z.le_min_r. Qed.

Lemma backoff_mono i j :
  0 <= BACKOFF_BASE_SECS cfg -> 0 <= i -> i <= j ->
  _seconds_backoff cfg i <= _seconds_backoff cfg j.
Proof.
  intros Hbase Hi Hij. rewrite !backoff_unfold.
  apply Z.min_le_compat_r, Z.mul_le_mono_nonneg_l; [assumption|].
  apply Z.pow_le_mono_r; lia.
Qed.

End Backoff.

Lemma default_backoff_capped r : 6 <= r -> _seconds_backoff default_config r = 3600.
Proof.
  intros Hr. rewrite backoff_unfold. cbn [BACKOFF_BASE_SECS BACKOFF_MAX_SECS default_config].
  assert (2 ^ 6 <= 2 ^ r) by (apply Z.pow_le_mono_r; lia).
  change (2 ^ 6) with 64 in *. lia.
Qed.

(** C4: the delay is [min (BASE * 2^r) CAP] for every retry count [0 <= r];
    it never exceeds the cap, it is non-decreasing in the retry count (for a
    base delay that is not negative), and with the defaults it runs 60, 120,
    240, ... and stays at 3600 from retry 6 on. *)
Theorem seconds_backoff_exponential_capped (cfg : Config) :
  (forall r, 0 <= r ->
     _seconds_backoff cfg r = Z.min (BACKOFF_BASE_SECS cfg * 2 ^ r) (BACKOFF_MAX_SECS cfg)
     /\ _seconds_backoff cfg r <= BACKOFF_MAX_SECS cfg)
  /\ (0 <= BACKOFF_BASE_SECS cfg ->
      forall i j, 0 <= i -> i <= j -> _seconds_backoff cfg i <= _seconds_backoff cfg j)
  /\ map (_seconds_backoff default_config) [0; 1; 2; 3; 4; 5; 6; 7]
     = [60; 120; 240; 480; 960; 1920; 3600; 3600]
  /\ (forall r, 6 <= r -> _seconds_backoff default_config r = 3600).
Proof.
  split; [|split; [|split]].
  - intros r _. split; [apply backoff_unfold | apply backoff_le_cap].
  - intros Hbase i j. apply backoff_mono, Hbase.
  - reflexivity.
  - apply default_backoff_capped.
Qed.

Lemma seconds_backoff_exponential_capped_witness :
  (_seconds_backoff default_config 3 = 480 /\ _seconds_backoff default_config 3 <= 3600)
  /\ _seconds_backoff default_config 1 <= _seconds_backoff default_config 4.
Proof.
  destruct (seconds_backoff_exponential_capped default_config) as (Hmin & Hmono & _).
  split.
  - apply (Hmin 3). lia.
  - apply (Hmono ltac:(simpl; lia) 1 4); lia.
Defined.

(** ** Row updates by id *)

Section Requeue.

Variable cfg : Config.




(** The statement of [requeue_with_backoff] changes the row [reminder_id]
    by one of its two [SET] clauses, and nothing else. *)
Lemma requeue_lookup now id r e (st : gmap Z Job) :
  requeue_with_backoff cfg now id r e st !! id
  = (if r + 1 >=? MAX_RETRIES cfg then failed_row e
     else retry_row now (_seconds_backoff cfg (r + 1)) e) <$> st !! id.
Proof.
  unfold requeue_with_backoff. cbv zeta.
  destruct (r + 1 >=? MAX_RETRIES cfg); apply lookup_alter_eq.
Qed.

Lemma requeue_lookup_ne now id id' r e (st : gmap Z Job) :
  id <> id' -> requeue_with_backoff cfg now id r e st !! id' = st !! id'.
Proof.
  intros Hne. unfold requeue_with_backoff. cbv zeta.
  destruct (r + 1 >=? MAX_RETRIES cfg); now apply lookup_alter_ne.
Qed.

Lemma mark_sent_lookup now id (st : gmap Z Job) :
  mark_sent now id st !! id = sent_row now <$> st !! id.
Proof. apply lookup_alter_eq. Qed.

Lemma mark_sent_lookup_ne now id id' (st : gmap Z Job) :
  id <> id' -> mark_sent now id st !! id' = st !! id'.
Proof. intros Hne. now apply lookup_alter_ne. Qed.

End Requeue.

(** C2: [requeue_with_backoff] on an existing row.  With
    [r + 1 >= MAX_RETRIES] the row becomes [failed], its retry count grows by
    one, its lease and [posted_at] are cleared and the truncated error is
    stored; with [r + 1 < MAX_RETRIES] it becomes [pending] again, its retry
    count grows by one, its lease and [started_at] are cleared, it is due
    [backoff (r + 1)] seconds from now, and the error is stored.  No other
    row changes. *)
Theorem requeue_with_backoff_branches (cfg : Config) (now id r : Z) (e : string)
    (st : gmap Z Job) (j : Job) :
  st !! id = Some j ->
  0 <= r ->
  (MAX_RETRIES cfg <= r + 1 ->
   requeue_with_backoff cfg now id r e st !! id
   = Some {| todo_id := todo_id j; user_id := user_id j;
             status := Failed;
             scheduled_for := scheduled_for j;
             visibility_timeout := None;
             started_at := started_at j;
             posted_at := None;
             retry_count := sql_succ (retry_count j);
             error := Some (sql_left e 512) |})
  /\ (r + 1 < MAX_RETRIES cfg ->
      requeue_with_backoff cfg now id r e st !! id
      = Some {| todo_id := todo_id j; user_id := user_id j;
                status := Pending;
                scheduled_for :=
                  now + make_interval
                          (Z.min (BACKOFF_BASE_SECS cfg * 2 ^ (r + 1)) (BACKOFF_MAX_SECS cfg));
                visibility_timeout := None;
                started_at := None;
                posted_at := posted_at j;
                retry_count := sql_succ (retry_count j);
                error := Some (sql_left e 512) |})
  /\ (forall c, retry_count j = Some c -> sql_succ (retry_count j) = Some (c + 1))
  /\ (forall id', id <> id' -> requeue_with_backoff cfg now id r e st !! id' = st !! id').
Proof.
  intros Hj _. rewrite requeue_lookup, Hj. repeat split.
  - intros Hmax. destruct (Z.geb_spec (r + 1) (MAX_RETRIES cfg)); [reflexivity | lia].
  - intros Hmax. destruct (Z.geb_spec (r + 1) (MAX_RETRIES cfg)); [lia | reflexivity].
  - intros c Hc. now rewrite Hc.
  - intros id' Hne. now apply requeue_lookup_ne.
Qed.

Lemma requeue_with_backoff_branches_witness :
  status <$> requeue_with_backoff default_config 700 1 4 "boom" Sample.queue !! 1 = Some Failed
  /\ scheduled_for <$> requeue_with_backoff default_config 700 1 0 "boom" Sample.queue !! 1
     = Some (700 + 120 * 1000000).
Proof.
  destruct (requeue_with_backoff_branches default_config 700 1 4 "boom"
              Sample.queue Sample.due_late) as (Hfail & _); [reflexivity | lia |].
  destruct (requeue_with_backoff_branches default_config 700 1 0 "boom"
              Sample.queue Sample.due_late) as (_ & Hretry & _); [reflexivity | lia |].
  split.
  - rewrite Hfail; [reflexivity | simpl; lia].
  - rewrite Hretry; [reflexivity | simpl; lia].
Defined.



(** C10: [get_retry_count] gives 0 when no row has the id and when the row's
    [retry_count] is NULL, and the stored count otherwise; the call itself
    returns 0 for a missing row whenever its round trip goes through. *)
Theorem get_retry_count_absent_is_zero (id : Z) (st : gmap Z Job) :
  (st !! id = None -> get_retry_count id st = 0)
  /\ (forall j, st !! id = Some j -> retry_count j = None -> get_retry_count id st = 0)
  /\ (forall j c, st !! id = Some j -> retry_count j = Some c -> get_retry_count id st = c)
  /\ (forall env w, jobs w = st -> st !! id = None -> db_fault env (tick w) = None ->
        get_retry_count_io id env w = (Ok 0, next_tick w)).
Proof.
  unfold get_retry_count_io, db_round_trip, get_retry_count, fetchval_retry_count.
  repeat split.
  - now intros ->.
  - intros j -> Hnull. simpl. now rewrite Hnull.
  - intros j c -> Hc. simpl. rewrite Hc. destruct (Z.eqb_spec c 0); congruence.
  - intros env w <- Hnone ->. cbn [jobs next_tick]. now rewrite Hnone.
Qed.

Lemma get_retry_count_absent_is_zero_witness :
  get_retry_count 99 Sample.queue = 0 /\ get_retry_count 2 Sample.queue = 1.
Proof.
  destruct (get_retry_count_absent_is_zero 99 Sample.queue) as (Hnone & _).
  destruct (get_retry_count_absent_is_zero 2 Sample.queue) as (_ & _ & Hsome & _).
  split; [apply Hnone; reflexivity | apply (Hsome Sample.due_early); reflexivity].
Defined.

(** ** Claiming *)

Global Instance due_before_trans : Transitive due_before.
Proof. intros a b c. unfold due_before. lia. Qed.

Global Instance due_before_total : Total due_before.
Proof. intros a b. unfold due_before. lia. Qed.

Global Instance due_order_trans rank : Transitive (due_order rank).
Proof. intros a b c. unfold due_order. lia. Qed.

Global Instance due_order_total rank : Total (due_order rank).
Proof. intros a b. unfold due_order. lia. Qed.

Lemma due_order_due_before rank a b : due_order rank a b -> due_before a b.
Proof. unfold due_order, due_before. lia. Qed.

Lemma StronglySorted_weaken {A} (R S : relation A) (l : list A) :
  (forall x y, R x y -> S x y) -> StronglySorted R l -> StronglySorted S l.
Proof.
  intros HRS Hs. induction Hs as [|x l Hs IH Hall]; constructor; [exact IH|].
  eapply Forall_impl; [exact Hall | apply HRS].
Qed.

Lemma eligible_claimable now j : eligible now j = true <-> claimable now j.
Proof.
  unfold eligible, claimable. rewrite !andb_true_iff, bool_decide_eq_true, Z.leb_le.
  destruct (visibility_timeout j) as [v|].
  - rewrite Z.leb_le. split.
    + intros [[Hs Hd] Hv]. repeat split; eauto.
    + intros (Hs & Hd & [Hv | (v' & Hv & Hle)]); [discriminate|].
      injection Hv as ->. auto.
  - split; [intros [[Hs Hd] _] | intros (Hs & Hd & _)]; auto.
Qed.

Section Claim.

Variable cfg : Config.
Variable locked : Z -> bool.
Variable plan : Plan.
Variables now limit : Z.
Variable st : gmap Z Job.

(** The rows the CTE chooses among, before [ORDER BY] and [LIMIT]. *)
Let candidates : list (Z * Job) :=
  filter (fun r => eligible now r.2 && negb (locked r.1)) (map_to_list st).

Let cte := claim_cte locked plan now limit st.

Let order := due_order (scan_rank plan).

Lemma claim_cte_split :
  merge_sort order candidates
  = cte ++ drop (Z.to_nat limit) (merge_sort order candidates).
Proof. symmetry. apply take_drop. Qed.

Lemma candidates_spec i j :
  (i, j) ∈ candidates <-> st !! i = Some j /\ eligible now j = true /\ locked i = false.
Proof.
  unfold candidates. rewrite list_elem_of_filter, elem_of_map_to_list. simpl.
  rewrite andb_True, negb_True, Is_true_true, Is_true_false. tauto.
Qed.

Lemma sorted_candidates i j :
  (i, j) ∈ merge_sort order candidates <-> (i, j) ∈ candidates.
Proof. now rewrite merge_sort_Permutation. Qed.

Lemma claim_cte_elem i j :
  (i, j) ∈ cte -> st !! i = Some j /\ eligible now j = true /\ locked i = false.
Proof.
  intros Hin. apply candidates_spec, sorted_candidates.
  eapply elem_of_sublist; [exact Hin | apply sublist_take].
Qed.

Lemma claim_cte_NoDup : NoDup (cte.*1).
Proof.
  eapply sublist_NoDup; [|apply fmap_sublist, sublist_take].
  rewrite merge_sort_Permutation.
  eapply sublist_NoDup; [|apply fmap_sublist, sublist_filter].
  apply NoDup_fst_map_to_list.
Qed.

Lemma claim_cte_length : (length cte <= Z.to_nat limit)%nat.
Proof. unfold cte, claim_cte. rewrite length_take. lia. Qed.

Lemma sorted_in_due_order : StronglySorted order (merge_sort order candidates).
Proof. apply StronglySorted_merge_sort; apply _. Qed.

Lemma claim_cte_sorted : StronglySorted due_before cte.
Proof.
  apply (StronglySorted_weaken order); [apply due_order_due_before|].
  eapply StronglySorted_app_1_l. rewrite <- claim_cte_split. apply sorted_in_due_order.
Qed.

(** A candidate that was not taken is due no earlier than every row taken,
    and the limit was reached. *)
Lemma claim_cte_earliest i j i0 j0 :
  st !! i = Some j -> eligible now j = true -> locked i = false ->
  i ∉ cte.*1 ->
  (length cte = Z.to_nat limit)
  /\ ((i0, j0) ∈ cte -> scheduled_for j0 <= scheduled_for j).
Proof.
  intros Hi Hel Hlock Hnot.
  assert (Hcand : (i, j) ∈ merge_sort order candidates)
    by (apply sorted_candidates, candidates_spec; auto).
  rewrite claim_cte_split, elem_of_app in Hcand.
  destruct Hcand as [Hin | Hdrop].
  { exfalso. apply Hnot. apply list_elem_of_fmap. exists (i, j). auto. }
  split.
  - unfold cte, claim_cte. apply length_take_le.
    destruct (decide (Z.to_nat limit <= length (merge_sort order candidates))%nat)
      as [|Hgt]; [assumption|].
    rewrite drop_ge in Hdrop by lia. now apply elem_of_nil in Hdrop.
  - intros Hin0.
    pose proof sorted_in_due_order as Hs.
    rewrite claim_cte_split in Hs.
    exact (due_order_due_before _ _ _
             (StronglySorted_app_1_elem_of _ _ _ _ _ Hs Hin0 Hdrop)).
Qed.

Lemma claim_cte_no_candidates :
  (forall i j, st !! i = Some j -> eligible now j = false) -> cte = [].
Proof.
  intros Hnone. destruct cte as [|[i j] rest] eqn:E; [reflexivity|].
  assert (Hin : (i, j) ∈ cte) by (rewrite E; left).
  apply claim_cte_elem in Hin as (Hi & Hel & _). rewrite (Hnone _ _ Hi) in Hel.
  discriminate.
Qed.

Lemma claim_jobs_ok :
  0 <= limit ->
  claim_jobs cfg locked plan now limit st
  = Ok ((fun r => mkRow r.1 (todo_id r.2) (user_id r.2))
          <$> merge_sort (by_rank (returning_rank plan)) cte,
        map_imap (fun i j => Some (if bool_decide (i ∈ cte.*1) then claim_row cfg now j else j)) st).
Proof.
  intros Hlim. unfold claim_jobs. destruct (Z.ltb_spec limit 0); [lia | reflexivity].
Qed.

End Claim.

Lemma returned_row_ids (l : list (Z * Job)) :
  row_id <$> ((fun r => mkRow r.1 (todo_id r.2) (user_id r.2)) <$> l) = l.*1.
Proof. rewrite <- list_fmap_compose. reflexivity. Qed.

(** The ids of the rows returned are those of the CTE, in another order. *)
Lemma returned_ids_of_cte (rank : Z -> Z) (cte : list (Z * Job)) :
  row_id <$> ((fun r => mkRow r.1 (todo_id r.2) (user_id r.2))
                <$> merge_sort (by_rank rank) cte)
  ≡ₚ cte.*1.
Proof. rewrite returned_row_ids. now rewrite merge_sort_Permutation. Qed.

(** C1: for a limit that is not negative, [claim_jobs] returns (it does not
    raise) at most [limit] rows, each of a job that was pending, due and
    under no running lease (and not locked by another transaction).  The
    rows returned are those the CTE selected, and the CTE selects in
    ascending order of [scheduled_for]: a job left out while it qualified is
    due no earlier than those taken, the limit being reached.  (In which
    order the rows are returned is the executor's choice, and nothing is said
    of it.)  In the same step every returned job, and no other, becomes
    [processing] with [started_at = now] and
    [visibility_timeout = now + lease].  When no job qualifies the result is
    the empty list and the table is unchanged. *)
Theorem claim_jobs_contract (cfg : Config) (locked : Z -> bool) (plan : Plan)
    (now limit : Z) (st : gmap Z Job) :
  0 <= limit ->
  exists rows st',
    claim_jobs cfg locked plan now limit st = Ok (rows, st')
    /\ Z.of_nat (length rows) <= limit
    /\ NoDup (row_id <$> rows)
    /\ (forall row, row ∈ rows ->
        exists j,
          st !! row_id row = Some j
          /\ claimable now j
          /\ locked (row_id row) = false
          /\ row_todo_id row = todo_id j
          /\ row_user_id row = user_id j
          /\ st' !! row_id row
             = Some {| todo_id := todo_id j; user_id := user_id j;
                       status := Processing;
                       scheduled_for := scheduled_for j;
                       visibility_timeout :=
                         Some (now + make_interval (VISIBILITY_TIMEOUT_SECS cfg));
                       started_at := Some now;
                       posted_at := posted_at j;
                       retry_count := retry_count j;
                       error := error j |})
    /\ (forall i, i ∉ row_id <$> rows -> st' !! i = st !! i)
    /\ (row_id <$> rows ≡ₚ (claim_cte locked plan now limit st).*1
        /\ StronglySorted due_before (claim_cte locked plan now limit st))
    /\ (forall i j,
          st !! i = Some j -> claimable now j -> locked i = false ->
          i ∉ row_id <$> rows ->
          Z.of_nat (length rows) = limit
          /\ forall row j0, row ∈ rows -> st !! row_id row = Some j0 ->
               scheduled_for j0 <= scheduled_for j)
    /\ ((forall i j, st !! i = Some j -> ~ claimable now j) -> rows = [] /\ st' = st).
Proof.
  intros Hlim. eexists _, _. split; [apply claim_jobs_ok, Hlim|].
  set (cte := claim_cte locked plan now limit st).
  set (out := merge_sort (by_rank (returning_rank plan)) cte).
  assert (Hout : out ≡ₚ cte) by apply merge_sort_Permutation.
  assert (Hids : row_id <$> ((fun r => mkRow r.1 (todo_id r.2) (user_id r.2)) <$> out)
                 ≡ₚ cte.*1) by apply returned_ids_of_cte.
  assert (Hsame : length out = length cte) by (apply Permutation_length, Hout).
  rewrite length_fmap, Hsame.
  pose proof (claim_cte_length locked plan now limit st) as Hlen. fold cte in Hlen.
  split; [lia|]. split; [rewrite Hids; apply claim_cte_NoDup|].
  assert (Hrow : forall row,
            row ∈ (fun r => mkRow r.1 (todo_id r.2) (user_id r.2)) <$> out ->
            exists j, (row_id row, j) ∈ cte
                      /\ row_todo_id row = todo_id j /\ row_user_id row = user_id j).
  { intros row Hin. apply list_elem_of_fmap in Hin as ([i j] & -> & Hin).
    rewrite Hout in Hin. exists j. auto. }
  split; [|split; [|split; [|split]]].
  - intros row Hin. destruct (Hrow row Hin) as (j & Hcte & Htodo & Huser).
    exists j. destruct (claim_cte_elem _ _ _ _ _ _ _ Hcte) as (Hj & Hel & Hlock).
    repeat (split; [first [assumption | now apply eligible_claimable]|]).
    rewrite map_lookup_imap, Hj. simpl. rewrite bool_decide_eq_true_2; [reflexivity|].
    apply list_elem_of_fmap. exists (row_id row, j). auto.
  - intros i Hnot. rewrite Hids in Hnot. rewrite map_lookup_imap.
    destruct (st !! i) as [j|]; [|reflexivity].
    simpl. now rewrite bool_decide_eq_false_2.
  - split; [exact Hids | apply claim_cte_sorted].
  - intros i j Hi Hcl Hlock Hnot. rewrite Hids in Hnot. apply eligible_claimable in Hcl.
    split.
    + pose proof (claim_cte_earliest locked plan now limit st i j 0 j Hi Hcl Hlock Hnot)
        as [Hfull _]. fold cte in Hfull. lia.
    + intros row j0 Hin Hj0. destruct (Hrow row Hin) as (j1 & Hcte & _).
      pose proof (claim_cte_elem _ _ _ _ _ _ _ Hcte) as (Hj1 & _).
      assert (j1 = j0) as -> by congruence.
      now apply (claim_cte_earliest locked plan now limit st i j (row_id row) j0
                   Hi Hcl Hlock Hnot).
  - intros Hnone.
    assert (Hnil : cte = []).
    { apply claim_cte_no_candidates. intros i j Hi.
      destruct (eligible now j) eqn:E; [|reflexivity].
      apply eligible_claimable in E. now destruct (Hnone i j Hi). }
    unfold out. rewrite Hnil. split; [reflexivity|].
    apply map_eq. intros i. rewrite map_lookup_imap.
    destruct (st !! i) as [j|]; reflexivity.
Qed.

Lemma claim_jobs_contract_witness :
  exists rows st',
    claim_jobs default_config Sample.unlocked Sample.by_id 1000 10 Sample.queue
    = Ok (rows, st')
    /\ Z.of_nat (length rows) <= 10.
Proof.
  destruct (claim_jobs_contract default_config Sample.unlocked Sample.by_id 1000 10
              Sample.queue)
    as (rows & st' & Hok & Hlen & _); [lia|].
  exists rows, st'. split; assumption.
Defined.

(** The rows come back in the order of the plan, which need not be the
    order in which they are due: job 2 is due before job 1. *)
Example claim_jobs_returns_in_plan_order :
  Sample.claimed_ids
    (claim_jobs default_config Sample.unlocked Sample.by_id 1000 10 Sample.queue)
  = [1; 2]
  /\ Sample.claimed_ids
       (claim_jobs default_config Sample.unlocked Sample.by_id_desc 1000 10 Sample.queue)
     = [2; 1].
Proof. split; vm_compute; reflexivity. Qed.

Lemma claim_jobs_inv cfg locked plan now limit (st : gmap Z Job) rows st' :
  claim_jobs cfg locked plan now limit st = Ok (rows, st') ->
  0 <= limit
  /\ row_id <$> rows ≡ₚ (claim_cte locked plan now limit st).*1
  /\ st' = map_imap (fun i j =>
             Some (if bool_decide (i ∈ (claim_cte locked plan now limit st).*1)
                   then claim_row cfg now j else j)) st.
Proof.
  unfold claim_jobs. destruct (Z.ltb_spec limit 0); [discriminate|].
  intros [= <- <-]. split; [assumption|]. split; [apply returned_ids_of_cte | reflexivity].
Qed.

(** A returned id is the id of a row that qualified, and that row is now
    the claimed one. *)
Lemma claim_jobs_claimed cfg locked plan now limit (st : gmap Z Job) rows st' id :
  claim_jobs cfg locked plan now limit st = Ok (rows, st') ->
  id ∈ row_id <$> rows ->
  exists j, st !! id = Some j /\ eligible now j = true
            /\ st' !! id = Some (claim_row cfg now j).
Proof.
  intros Hclaim Hin. apply claim_jobs_inv in Hclaim as (_ & Hids & ->).
  rewrite Hids in Hin. pose proof Hin as Hin'.
  apply list_elem_of_fmap in Hin' as ([i j] & -> & Hcte). cbn [fst] in *.
  apply claim_cte_elem in Hcte as (Hj & Hel & _).
  exists j. repeat split; [assumption..|].
  rewrite map_lookup_imap, Hj. simpl. now rewrite bool_decide_eq_true_2.
Qed.

(** Every other row is as it was. *)
Lemma claim_jobs_unclaimed cfg locked plan now limit (st : gmap Z Job) rows st' id :
  claim_jobs cfg locked plan now limit st = Ok (rows, st') ->
  id ∉ row_id <$> rows ->
  st' !! id = st !! id.
Proof.
  intros Hclaim Hnot. apply claim_jobs_inv in Hclaim as (_ & Hids & ->).
  rewrite Hids in Hnot. rewrite map_lookup_imap.
  destruct (st !! id) as [j|]; [|reflexivity]. simpl. now rewrite bool_decide_eq_false_2.
Qed.

(** ** Retries until exhaustion *)

Section Exhaustion.

Variable cfg : Config.
Variable id : Z.

Lemma get_retry_count_stored (st : gmap Z Job) j c :
  st !! id = Some j -> retry_count j = Some c -> get_retry_count id st = c.
Proof.
  intros Hj Hc. unfold get_retry_count, fetchval_retry_count. rewrite Hj. simpl.
  rewrite Hc. destruct (Z.eqb_spec c 0); congruence.
Qed.

(** One failing cycle on a row with count [c]: the count becomes [c + 1],
    and the row is [failed] exactly when that reaches [MAX_RETRIES]. *)
Lemma failing_cycle_step (c : Cycle) (st st1 : gmap Z Job) j n :
  failing_cycle cfg id c st = Some st1 ->
  st !! id = Some j -> retry_count j = Some n ->
  exists j1,
    st1 !! id = Some j1
    /\ retry_count j1 = Some (n + 1)
    /\ status j1 = (if n + 1 >=? MAX_RETRIES cfg then Failed else Pending)
    /\ error j1 = Some (sql_left (c_error c) 512)
    /\ status j = Pending.
Proof.
  unfold failing_cycle. intros Hcycle Hj Hn.
  destruct (claim_jobs cfg (c_locked c) (c_plan c) (c_claimed_at c) (c_limit c) st)
    as [[rows claimed]|] eqn:Hclaim; [|discriminate].
  case_bool_decide as Hin; [|discriminate]. injection Hcycle as <-.
  destruct (claim_jobs_claimed _ _ _ _ _ _ _ _ _ Hclaim Hin) as (j0 & Hj0 & Hel & Hclaimed).
  assert (j0 = j) as -> by congruence.
  apply eligible_claimable in Hel as (Hpending & _).
  rewrite (get_retry_count_stored claimed (claim_row cfg (c_claimed_at c) j) n Hclaimed Hn).
  rewrite requeue_lookup, Hclaimed. simpl.
  destruct (n + 1 >=? MAX_RETRIES cfg); eexists; (split; [reflexivity|]); simpl;
    rewrite Hn; auto.
Qed.

Lemma failing_cycles_app (cs1 cs2 : list Cycle) (st : gmap Z Job) :
  failing_cycles cfg id (cs1 ++ cs2) st
  = failing_cycles cfg id cs1 st ≫= failing_cycles cfg id cs2.
Proof.
  revert st. induction cs1 as [|c cs1 IH]; intros st; [reflexivity|]. simpl.
  destruct (failing_cycle cfg id c st) as [st1|]; [apply IH | reflexivity].
Qed.

(** After [k >= 1] failing cycles from count [n], within the budget. *)
Lemma failing_cycles_count (cs : list Cycle) : forall (st st' : gmap Z Job) j n c_last,
  failing_cycles cfg id cs st = Some st' ->
  st !! id = Some j -> retry_count j = Some n ->
  last cs = Some c_last ->
  n + Z.of_nat (length cs) <= MAX_RETRIES cfg ->
  exists j',
    st' !! id = Some j'
    /\ retry_count j' = Some (n + Z.of_nat (length cs))
    /\ status j' = (if n + Z.of_nat (length cs) >=? MAX_RETRIES cfg then Failed else Pending)
    /\ error j' = Some (sql_left (c_error c_last) 512).
Proof.
  induction cs as [|c cs IH]; intros st st' j n c_last Hrun Hj Hn Hlast Hbudget;
    [discriminate|].
  simpl in Hrun.
  destruct (failing_cycle cfg id c st) as [st1|] eqn:Hc; [|discriminate]. simpl in Hrun.
  destruct (failing_cycle_step c st st1 j n Hc Hj Hn) as (j1 & Hj1 & Hn1 & Hs1 & He1 & _).
  destruct cs as [|c2 cs].
  - injection Hrun as <-. injection Hlast as <-. exists j1.
    change (Z.of_nat (length [c])) with 1. auto.
  - assert (Hlast' : last (c2 :: cs) = Some c_last) by exact Hlast.
    destruct (IH st1 st' j1 (n + 1) c_last Hrun Hj1 Hn1 Hlast') as (j' & Hj' & Hn' & Hs' & He').
    { cbn [length] in *. lia. }
    exists j'. replace (n + Z.of_nat (length (c :: c2 :: cs)))
      with (n + 1 + Z.of_nat (length (c2 :: cs))) by (cbn [length]; lia).
    auto.
Qed.

End Exhaustion.

(** C3: a job that starts with retry count 0 and fails in [MAX_RETRIES]
    cycles in a row (claim, failed attempt, [requeue_with_backoff] with the
    count read back) ends [failed] with retry count [MAX_RETRIES] and the
    (truncated) text of the last failure as its error; after every shorter
    run of those cycles it is [pending], so it becomes [failed] in the last
    cycle only. *)
Theorem exhaustion_after_max_retries (cfg : Config) (id : Z) (cs : list Cycle)
    (st st' : gmap Z Job) (j : Job) :
  1 <= MAX_RETRIES cfg ->
  Z.of_nat (length cs) = MAX_RETRIES cfg ->
  st !! id = Some j ->
  retry_count j = Some 0 ->
  failing_cycles cfg id cs st = Some st' ->
  exists j' c_last,
    last cs = Some c_last
    /\ st' !! id = Some j'
    /\ status j' = Failed
    /\ retry_count j' = Some (MAX_RETRIES cfg)
    /\ error j' = Some (sql_left (c_error c_last) 512)
    /\ forall k, (k < length cs)%nat ->
         exists st_k j_k,
           failing_cycles cfg id (take k cs) st = Some st_k
           /\ st_k !! id = Some j_k
           /\ status j_k = Pending
           /\ retry_count j_k = Some (Z.of_nat k).
Proof.
  intros Hmax Hlen Hj Hn Hrun.
  assert (Hne : cs <> []) by (intros ->; simpl in Hlen; lia).
  destruct (proj2 (last_is_Some cs) Hne) as [c_last Hlast].
  destruct (failing_cycles_count cfg id cs st st' j 0 c_last Hrun Hj Hn Hlast)
    as (j' & Hj' & Hn' & Hs' & He'); [lia|].
  exists j', c_last. rewrite Hlen in Hn', Hs'. simpl (0 + _) in Hn', Hs'.
  rewrite (proj2 (Z.geb_le _ _)) in Hs' by lia.
  repeat (split; [assumption|]).
  intros k Hk.
  rewrite <- (take_drop k cs), failing_cycles_app in Hrun.
  destruct (failing_cycles cfg id (take k cs) st) as [st_k|] eqn:Hpre; [|discriminate].
  simpl in Hrun. exists st_k.
  destruct k as [|k].
  - rewrite take_0 in Hpre. injection Hpre as <-. exists j.
    rewrite drop_0 in Hrun. destruct cs as [|c cs]; [contradiction|]. simpl in Hrun.
    destruct (failing_cycle cfg id c st) as [st1|] eqn:Hc; [|discriminate].
    destruct (failing_cycle_step cfg id c st st1 j 0 Hc Hj Hn) as (_ & _ & _ & _ & _ & Hp).
    auto.
  - assert (Hlenk : length (take (S k) cs) = S k) by (rewrite length_take; lia).
    assert (Hnek : take (S k) cs <> []) by (intros E; rewrite E in Hlenk; discriminate).
    destruct (proj2 (last_is_Some _) Hnek) as [c_k Hlastk].
    destruct (failing_cycles_count cfg id _ st st_k j 0 c_k Hpre Hj Hn Hlastk)
      as (j_k & Hj_k & Hn_k & Hs_k & _); [rewrite Hlenk; lia|].
    exists j_k. rewrite Hlenk in Hn_k, Hs_k. simpl (0 + _) in Hn_k, Hs_k.
    rewrite Z.geb_leb, (proj2 (Z.leb_gt _ _)) in Hs_k by lia. auto.
Qed.

Lemma exhaustion_after_max_retries_witness :
  failing_cycles default_config 1 Sample.five_failures Sample.lone
  = Some Sample.lone_exhausted
  /\ exists j',
       Sample.lone_exhausted !! 1 = Some j'
       /\ status j' = Failed /\ retry_count j' = Some 5
       /\ error j' = Some "channel_not_found".
Proof.
  assert (Hrun : failing_cycles default_config 1 Sample.five_failures Sample.lone
                 = Some Sample.lone_exhausted) by (vm_compute; reflexivity).
  split; [exact Hrun|].
  destruct (exhaustion_after_max_retries default_config 1 Sample.five_failures
              Sample.lone Sample.lone_exhausted Sample.due_late)
    as (j' & c_last & Hlast & Hj' & Hs & Hn & He & _);
    [simpl; lia | reflexivity | reflexivity | reflexivity | exact Hrun |].
  exists j'. injection Hlast as <-. auto.
Defined.

(** ** Rendering *)

Section Rendering.

Variable py_repr : json -> string.

Lemma str_items_strings (l : list string) i : str_items i (JStr <$> l) = Ok l.
Proof.
  revert i. induction l as [|s l IH]; intros i; [reflexivity|].
  cbn. now rewrite IH.
Qed.

Lemma join_tags_strings (l : list string) :
  join_tags (JArr (JStr <$> l)) = Ok (String.concat ", " l).
Proof. unfold join_tags. now rewrite str_items_strings. Qed.

Lemma truthy_dict_get members key :
  truthy (dict_get members key) = true -> has_key members key = true.
Proof.
  unfold has_key. intros Ht. apply bool_decide_eq_true.
  induction members as [|[k v] rest IH]; [discriminate|].
  simpl in *. case_bool_decide as Hk.
  - subst. left.
  - right. auto.
Qed.

(** A field that prints comes from a payload that is a dict holding its key. *)
Lemma truthy_field_present (p : json) key :
  truthy (payload_field (payload_or_empty p) key) = true ->
  exists members, p = JObj members /\ has_key members key = true.
Proof.
  unfold payload_or_empty. destruct (truthy p) eqn:Hp; [|discriminate].
  destruct p as [| | | | |items|members]; try discriminate.
  simpl. intros Ht. exists members. split; [reflexivity|]. now apply truthy_dict_get.
Qed.

Lemma payload_field_null key : payload_field (payload_or_empty JNull) key = JNull.
Proof. reflexivity. Qed.

(** The lines of the message, once the date and the tags are rendered. *)
Lemma message_lines_eq (job : Details) (due t : string) :
  due_text (d_due_date job) = Ok due ->
  (truthy (job_field job "tags") = true ->
   join_tags (job_field job "tags") = Ok t) ->
  message_lines py_repr job
  = Ok ([ "📌 Todo Reminder"; "• Description: " +:+ d_description job; "• Due: " +:+ due ]
        ++ (if truthy (job_field job "tags")
            then ["• Tags: " +:+ t] else [])
        ++ (if truthy (job_field job "priority")
            then ["• Priority: "
                  +:+ py_str py_repr (job_field job "priority")]
            else [])
        ++ (if truthy (job_field job "notes")
            then ["• Notes: "
                  +:+ py_str py_repr (job_field job "notes")]
            else [])).
Proof.
  intros Hdue Htags. unfold message_lines. rewrite Hdue. cbv zeta.
  destruct (truthy (job_field job "tags")).
  - rewrite (Htags eq_refl).
    destruct (truthy (job_field job "priority")), (truthy (job_field job "notes"));
      reflexivity.
  - destruct (truthy (job_field job "priority")), (truthy (job_field job "notes"));
      reflexivity.
Qed.

End Rendering.

(** The example of the specification, and the same instant given with an
    offset of two hours and across a date line. *)
Example due_text_report : due_text (Some Sample.report_due) = Ok "2024-01-15 10:00 UTC".
Proof. reflexivity. Qed.

Example due_text_offset :
  due_text (Some (mkDatetime 2024 1 15 12 0 0 7200)) = Ok "2024-01-15 10:00 UTC".
Proof. reflexivity. Qed.

Example due_text_date_line :
  due_text (Some (mkDatetime 2024 3 1 1 30 0 10800)) = Ok "2024-02-29 22:30 UTC".
Proof. reflexivity. Qed.

Example format_message_report :
  message_lines Sample.no_repr (Sample.report Sample.tagged)
  = Ok ["📌 Todo Reminder"; "• Description: Submit report"; "• Due: 2024-01-15 10:00 UTC";
        "• Tags: work, urgent"; "• Priority: high"].
Proof. reflexivity. Qed.

(** C8, as stated, fails: a payload that holds all three keys, with an empty
    tag list, priority 0 and an empty note, renders none of the three
    lines. *)
Lemma format_message_present_but_omitted :
  has_key Sample.present_but_falsy "tags" = true
  /\ has_key Sample.present_but_falsy "priority" = true
  /\ has_key Sample.present_but_falsy "notes" = true
  /\ _format_message Sample.no_repr (Sample.report (JObj Sample.present_but_falsy))
     = Ok (String.concat newline
             ["📌 Todo Reminder"; "• Description: Submit report";
              "• Due: 2024-01-15 10:00 UTC"]).
Proof. repeat split; reflexivity. Qed.

(** C8, amended: [_format_message] is a function of the snapshot.  When the
    due date renders and the tags, if any, can be joined, the message is the
    lines below joined by newlines: the header, the description, the due
    date (for a datetime: its UTC fields as YYYY-MM-DD HH:MM UTC), then a tags
    line, a priority line and a notes line, each exactly when the payload's
    value under that key is truthy (so only when the payload is a dict that
    holds the key); a list of strings as tags is joined by a comma and a
    space.  With a null payload the message is the first three lines. *)
Theorem format_message_lines (py_repr : json -> string) (job : Details) (due t : string) :
  due_text (d_due_date job) = Ok due ->
  (truthy (job_field job "tags") = true -> join_tags (job_field job "tags") = Ok t) ->
  _format_message py_repr job
  = Ok (String.concat newline
          ([ "📌 Todo Reminder"; "• Description: " +:+ d_description job; "• Due: " +:+ due ]
           ++ (if truthy (job_field job "tags") then ["• Tags: " +:+ t] else [])
           ++ (if truthy (job_field job "priority")
               then ["• Priority: " +:+ py_str py_repr (job_field job "priority")] else [])
           ++ (if truthy (job_field job "notes")
               then ["• Notes: " +:+ py_str py_repr (job_field job "notes")] else [])))
  /\ (forall d, d_due_date job = Some d ->
        exists f, astimezone_utc d = Ok f /\ due = strftime_utc f)
  /\ (forall l, job_field job "tags" = JArr (JStr <$> l) ->
        truthy (job_field job "tags") = true -> t = String.concat ", " l)
  /\ (forall key, truthy (job_field job key) = true ->
        exists members, d_payload job = JObj members /\ has_key members key = true)
  /\ (d_payload job = JNull ->
      _format_message py_repr job
      = Ok (String.concat newline
              [ "📌 Todo Reminder"; "• Description: " +:+ d_description job;
                "• Due: " +:+ due ])).
Proof.
  intros Hdue Htags.
  pose proof (message_lines_eq py_repr job due t Hdue Htags) as Hlines.
  repeat split.
  - unfold _format_message. now rewrite Hlines.
  - intros d Hd. rewrite Hd in Hdue. simpl in Hdue.
    destruct (astimezone_utc d) as [f|]; [|discriminate].
    exists f. split; [reflexivity|]. congruence.
  - intros l Hl Ht. specialize (Htags Ht). rewrite Hl, join_tags_strings in Htags. congruence.
  - intros key. apply truthy_field_present.
  - intros Hnull. unfold _format_message. rewrite Hlines. unfold job_field.
    rewrite Hnull. reflexivity.
Qed.

Lemma format_message_lines_witness :
  _format_message Sample.no_repr (Sample.report Sample.tagged)
  = Ok (String.concat newline
          ["📌 Todo Reminder"; "• Description: Submit report"; "• Due: 2024-01-15 10:00 UTC";
           "• Tags: work, urgent"; "• Priority: high"]).
Proof.
  destruct (format_message_lines Sample.no_repr (Sample.report Sample.tagged)
              "2024-01-15 10:00 UTC" "work, urgent") as (Hmsg & _);
    [reflexivity | reflexivity |].
  exact Hmsg.
Defined.

(** ** Delivery *)

Section Delivery.

Variable py_repr : json -> string.

(** What [check_ack] accepts: a body that is a JSON object whose [ok] is truthy. *)
Lemma check_ack_ok (out : HttpOutcome) :
  check_ack py_repr out = Ok tt
  <-> exists code members,
        out = HttpResponse code (Ok (JObj members))
        /\ truthy (dict_get members "ok") = true.
Proof.
  split.
  - destruct out as [e|code [data|e]]; simpl; try discriminate.
    destruct data as [| | | | | |members]; try discriminate.
    destruct (truthy (dict_get members "ok")) eqn:Hok; [|discriminate].
    intros _. exists code, members. auto.
  - intros (code & members & -> & Hok). simpl. now rewrite Hok.
Qed.

Lemma check_ack_cases (out : HttpOutcome) :
  check_ack py_repr out = Ok tt \/ exists e, check_ack py_repr out = Raise e.
Proof. destruct (check_ack py_repr out) as [[]|e]; eauto. Qed.

Lemma post_to_slack_result cfg channel text env w :
  (post_to_slack cfg py_repr channel text env w).1
  = match SLACK_BOT_TOKEN cfg with
    | EmptyString => Raise "SLACK_BOT_TOKEN is not configured"
    | _ => check_ack py_repr (http_at env (tick w))
    end.
Proof. unfold post_to_slack. destruct (SLACK_BOT_TOKEN cfg); reflexivity. Qed.

End Delivery.

(** C6, as stated, fails: a response with status 500 whose body acknowledges
    with [ok] true is taken as a success. *)
Lemma post_to_slack_accepts_error_status :
  (post_to_slack default_config Sample.no_repr "C042" "hi"
     (Sample.env_of (HttpResponse 500 (Ok Sample.ack_ok))) Sample.world).1 = Ok tt.
Proof. reflexivity. Qed.

(** C6, amended: [post_to_slack] reports success exactly when a token is
    configured and the response body is a JSON object whose [ok] member is
    truthy, whatever the status code; an acknowledgment whose [ok] is missing
    or falsy raises the Slack API error, and every other outcome (no token, a
    failed request, a body that is not JSON or not an object) raises too. *)
Theorem post_to_slack_success_iff_ok (cfg : Config) (py_repr : json -> string)
    (channel text : string) (env : Env) (w : World) :
  ((post_to_slack cfg py_repr channel text env w).1 = Ok tt
   <-> SLACK_BOT_TOKEN cfg <> ""
       /\ exists code members,
            http_at env (tick w) = HttpResponse code (Ok (JObj members))
            /\ truthy (dict_get members "ok") = true)
  /\ (forall code members,
        SLACK_BOT_TOKEN cfg <> "" ->
        http_at env (tick w) = HttpResponse code (Ok (JObj members)) ->
        truthy (dict_get members "ok") = false ->
        (post_to_slack cfg py_repr channel text env w).1
        = Raise ("Slack API error: " +:+ py_repr (JObj members)))
  /\ ((post_to_slack cfg py_repr channel text env w).1 = Ok tt
      \/ exists e, (post_to_slack cfg py_repr channel text env w).1 = Raise e).
Proof.
  rewrite post_to_slack_result. split; [|split].
  - split.
    + intros Hok. destruct (SLACK_BOT_TOKEN cfg); [discriminate|].
      split; [discriminate|]. now apply check_ack_ok in Hok.
    + intros [Htoken Hack]. destruct (SLACK_BOT_TOKEN cfg); [contradiction|].
      now apply check_ack_ok.
  - intros code members Htoken -> Hok.
    destruct (SLACK_BOT_TOKEN cfg); [contradiction|]. simpl. now rewrite Hok.
  - destruct (SLACK_BOT_TOKEN cfg); [eauto | apply check_ack_cases].
Qed.

Lemma post_to_slack_success_iff_ok_witness :
  (post_to_slack default_config Sample.no_repr "C042" "hi"
     (Sample.env_of (HttpResponse 200 (Ok Sample.ack_ok))) Sample.world).1 = Ok tt
  /\ (post_to_slack default_config Sample.no_repr "C042" "hi"
        (Sample.env_of (HttpResponse 200 (Ok Sample.ack_not_ok))) Sample.world).1
     = Raise "Slack API error: ?".
Proof.
  split.
  - apply (post_to_slack_success_iff_ok default_config Sample.no_repr "C042" "hi"
             (Sample.env_of (HttpResponse 200 (Ok Sample.ack_ok))) Sample.world).
    split; [discriminate|]. eexists _, _. split; reflexivity.
  - eapply (post_to_slack_success_iff_ok default_config Sample.no_repr "C042" "hi"
              (Sample.env_of (HttpResponse 200 (Ok Sample.ack_not_ok))) Sample.world);
      [discriminate | reflexivity | reflexivity].
Defined.

(** ** The batch loop *)

Section Footprint.

Variable cfg : Config.
Variable py_repr : json -> string.

Lemma keeps_ret P {A} (a : A) : keeps P (ret a).
Proof. intros env w r w' [= _ <-]. reflexivity. Qed.

Lemma keeps_raise P {A} e : keeps P (@raise A e).
Proof. intros env w r w' [= _ <-]. reflexivity. Qed.

Lemma keeps_lift P {A} (x : Res A) : keeps P (lift x).
Proof. intros env w r w' [= _ <-]. reflexivity. Qed.

Lemma keeps_bind P {A B} (m : M A) (k : A -> M B) :
  keeps P m -> (forall a, keeps P (k a)) -> keeps P (bind m k).
Proof.
  intros Hm Hk env w r w' Hrun id Hid. unfold bind in Hrun.
  destruct (m env w) as [[a|e] w1] eqn:Em.
  - rewrite (Hk a env w1 r w' Hrun id Hid). exact (Hm env w _ w1 Em id Hid).
  - injection Hrun as _ <-. exact (Hm env w _ w1 Em id Hid).
Qed.

Lemma keeps_try_except P {A} (m : M A) (h : string -> M A) :
  keeps P m -> (forall e, keeps P (h e)) -> keeps P (try_except m h).
Proof.
  intros Hm Hh env w r w' Hrun id Hid. unfold try_except in Hrun.
  destruct (m env w) as [[a|e] w1] eqn:Em.
  - injection Hrun as _ <-. exact (Hm env w _ w1 Em id Hid).
  - rewrite (Hh e env w1 r w' Hrun id Hid). exact (Hm env w _ w1 Em id Hid).
Qed.

Lemma keeps_for_each P {A} (body : A -> M unit) (l : list A) :
  (forall x, x ∈ l -> keeps P (body x)) -> keeps P (for_each body l).
Proof.
  induction l as [|x l IH]; intros Hbody; [apply keeps_ret|].
  simpl. apply keeps_bind.
  - apply Hbody. left.
  - intros _. apply IH. intros y Hy. apply Hbody. now right.
Qed.

Lemma keeps_weaken (P Q : Z -> Prop) {A} (m : M A) :
  (forall id, Q id -> P id) -> keeps P m -> keeps Q m.
Proof. intros HPQ Hm env w r w' Hrun id Hid. eapply Hm; eauto. Qed.

(** Reads and the request to Slack change no row. *)
Lemma keeps_fetch_job_details P id : keeps P (fetch_job_details_io id).
Proof.
  intros env w r w' Hrun i _. unfold fetch_job_details_io, db_round_trip in Hrun.
  destruct (db_fault env (tick w)); injection Hrun as _ <-; reflexivity.
Qed.

Lemma keeps_get_retry_count P id : keeps P (get_retry_count_io id).
Proof.
  intros env w r w' Hrun i _. unfold get_retry_count_io, db_round_trip in Hrun.
  destruct (db_fault env (tick w)); injection Hrun as _ <-; reflexivity.
Qed.

Lemma keeps_post_to_slack P channel text : keeps P (post_to_slack cfg py_repr channel text).
Proof.
  intros env w r w' Hrun i _. unfold post_to_slack in Hrun.
  destruct (SLACK_BOT_TOKEN cfg); injection Hrun as _ <-; reflexivity.
Qed.

(** The two updates change the row they name, at most. *)
Lemma keeps_mark_sent id : keeps (fun i => i <> id) (mark_sent_io id).
Proof.
  intros env w r w' Hrun i Hne. unfold mark_sent_io, db_round_trip in Hrun.
  destruct (db_fault env (tick w)); injection Hrun as _ <-; [reflexivity|].
  cbn [jobs set_jobs next_tick]. apply mark_sent_lookup_ne. congruence.
Qed.

Lemma keeps_requeue id r e :
  keeps (fun i => i <> id) (requeue_with_backoff_io cfg id r e).
Proof.
  intros env w res w' Hrun i Hne. unfold requeue_with_backoff_io, db_round_trip in Hrun.
  destruct (db_fault env (tick w)); injection Hrun as _ <-; [reflexivity|].
  cbn [jobs set_jobs next_tick]. apply requeue_lookup_ne. congruence.
Qed.

Lemma keeps_attempt_job id : keeps (fun i => i <> id) (attempt_job cfg py_repr id).
Proof.
  unfold attempt_job. apply keeps_bind; [apply keeps_fetch_job_details|].
  intros [details|].
  - destruct (d_slack_channel details) as [[|c channel]|].
    + apply keeps_bind; [apply keeps_get_retry_count | intros r; apply keeps_requeue].
    + apply keeps_bind; [apply keeps_lift|]. intros text.
      apply keeps_bind; [apply keeps_post_to_slack | intros _; apply keeps_mark_sent].
    + apply keeps_bind; [apply keeps_get_retry_count | intros r; apply keeps_requeue].
  - apply keeps_bind; [apply keeps_get_retry_count | intros r; apply keeps_requeue].
Qed.

Lemma keeps_handle_failure id exc :
  keeps (fun i => i <> id) (handle_failure cfg id exc).
Proof.
  unfold handle_failure. apply keeps_try_except; [|intros e; apply keeps_ret].
  apply keeps_bind; [apply keeps_get_retry_count | intros r; apply keeps_requeue].
Qed.

Lemma keeps_process_job row :
  keeps (fun i => i <> row_id row) (process_job cfg py_repr row).
Proof.
  unfold process_job. apply keeps_try_except;
    [apply keeps_attempt_job | intros e; apply keeps_handle_failure].
Qed.

Lemma keeps_process_jobs rows :
  keeps (fun i => i ∉ row_id <$> rows) (for_each (process_job cfg py_repr) rows).
Proof.
  apply keeps_for_each. intros row Hrow.
  apply (keeps_weaken (fun i => i <> row_id row)); [|apply keeps_process_job].
  intros i Hi ->. apply Hi. apply list_elem_of_fmap. eauto.
Qed.

End Footprint.

Section Batch.

Variable cfg : Config.
Variable py_repr : json -> string.

(** No exception leaves [handle_failure], hence none leaves [process_job]. *)
Lemma handle_failure_returns id exc env w :
  exists w', handle_failure cfg id exc env w = (Ok tt, w').
Proof.
  unfold handle_failure, try_except.
  destruct (bind _ _ env w) as [[[]|e] w1]; eauto.
Qed.

Lemma process_job_returns row env w :
  exists w', process_job cfg py_repr row env w = (Ok tt, w').
Proof.
  unfold process_job, try_except.
  destruct (attempt_job cfg py_repr (row_id row) env w) as [[[]|e] w1]; [eauto|].
  apply handle_failure_returns.
Qed.

(** So the loop runs over the whole list. *)
Lemma for_each_process_job rows env w :
  for_each (process_job cfg py_repr) rows env w
  = (Ok tt, foldl (fun w0 row => (process_job cfg py_repr row env w0).2) w rows).
Proof.
  revert w. induction rows as [|row rows IH]; intros w; [reflexivity|].
  simpl. unfold bind. destruct (process_job_returns row env w) as [w1 Hrow].
  rewrite Hrow. apply IH.
Qed.

(** The handler, when its two round trips go through. *)
Lemma handle_failure_requeues id exc env w :
  db_fault env (tick w) = None ->
  db_fault env (S (tick w)) = None ->
  handle_failure cfg id exc env w
  = (Ok tt,
     set_jobs (next_tick (next_tick w))
       (requeue_with_backoff cfg (now_at env (S (tick w))) id
          (get_retry_count id (jobs w)) exc (jobs w))).
Proof.
  intros H1 H2.
  unfold handle_failure, try_except, bind, get_retry_count_io,
    requeue_with_backoff_io, db_round_trip.
  rewrite H1. cbn [tick next_tick]. rewrite H2. reflexivity.
Qed.

Lemma process_batch_run env w rows w1 :
  claim_jobs_io cfg (MAX_BATCH cfg) env w = (Ok rows, w1) ->
  process_batch cfg py_repr env w
  = (Ok (Z.of_nat (length rows)),
     foldl (fun w0 row => (process_job cfg py_repr row env w0).2) w1 rows).
Proof.
  intros Hclaim. unfold process_batch, bind. rewrite Hclaim.
  destruct rows as [|row rows]; [reflexivity|].
  rewrite for_each_process_job. reflexivity.
Qed.

Lemma process_batch_claim_fails env w e w1 :
  claim_jobs_io cfg (MAX_BATCH cfg) env w = (Raise e, w1) ->
  process_batch cfg py_repr env w = (Raise e, w1).
Proof. intros Hclaim. unfold process_batch, bind. now rewrite Hclaim. Qed.

(** What [claim_jobs_io] can do to the table. *)
Lemma claim_jobs_io_cases limit env w r w' :
  claim_jobs_io cfg limit env w = (r, w') ->
  (jobs w' = jobs w /\ exists e, r = Raise e)
  \/ (exists rows,
        r = Ok rows
        /\ claim_jobs cfg (locked_at env (tick w)) (plan_at env (tick w)) (now_at env (tick w))
             limit (jobs w)
           = Ok (rows, jobs w')).
Proof.
  unfold claim_jobs_io, db_round_trip. destruct (db_fault env (tick w)) as [e|].
  - intros [= <- <-]. left. eauto.
  - cbn [jobs next_tick].
    destruct (claim_jobs cfg _ _ _ limit (jobs w)) as [[rows js]|e] eqn:Hclaim.
    + intros [= <- <-]. right. exists rows. auto.
    + intros [= <- <-]. left. eauto.
Qed.

(** A job in a terminal status does not qualify. *)
Lemma terminal_not_eligible now j : is_terminal (status j) = true -> eligible now j = false.
Proof. unfold eligible. destruct (status j); [discriminate.. | reflexivity | reflexivity]. Qed.

Lemma claim_jobs_skips_terminal locked plan now limit (st : gmap Z Job) rows st' id j :
  claim_jobs cfg locked plan now limit st = Ok (rows, st') ->
  st !! id = Some j -> is_terminal (status j) = true ->
  (id ∉ row_id <$> rows) /\ st' !! id = Some j.
Proof.
  intros Hclaim Hj Hterm.
  assert (Hnot : id ∉ row_id <$> rows).
  { intros Hin. destruct (claim_jobs_claimed _ _ _ _ _ _ _ _ _ Hclaim Hin) as (j0 & Hj0 & Hel & _).
    assert (j0 = j) as -> by congruence.
    rewrite (terminal_not_eligible now j Hterm) in Hel. discriminate. }
  split; [exact Hnot|]. now rewrite (claim_jobs_unclaimed _ _ _ _ _ _ _ _ _ Hclaim Hnot).
Qed.

Lemma process_batch_keeps_terminal env w id j :
  jobs w !! id = Some j -> is_terminal (status j) = true ->
  jobs (after_batch cfg py_repr w env) !! id = Some j.
Proof.
  intros Hj Hterm. unfold after_batch.
  destruct (claim_jobs_io cfg (MAX_BATCH cfg) env w) as [r w1] eqn:Hio.
  destruct (claim_jobs_io_cases _ _ _ _ _ Hio) as [[Hsame [e ->]] | (rows & -> & Hclaim)].
  - rewrite (process_batch_claim_fails env w e w1 Hio). simpl. now rewrite Hsame.
  - rewrite (process_batch_run env w rows w1 Hio). cbn [snd].
    destruct (claim_jobs_skips_terminal _ _ _ _ _ _ _ _ _ Hclaim Hj Hterm) as [Hnot Hj1].
    pose proof (for_each_process_job rows env w1) as Hloop.
    rewrite (keeps_process_jobs cfg py_repr rows env w1 _ _ Hloop id Hnot). exact Hj1.
Qed.

Lemma after_batches_keeps_terminal envs w id j :
  jobs w !! id = Some j -> is_terminal (status j) = true ->
  jobs (after_batches cfg py_repr envs w) !! id = Some j.
Proof.
  revert w. induction envs as [|env envs IH]; intros w Hj Hterm; [exact Hj|].
  simpl. apply IH; [|exact Hterm]. now apply process_batch_keeps_terminal.
Qed.

End Batch.

(** ** Failures that are not recorded *)

Section Unrecorded.

Variable cfg : Config.
Variable py_repr : json -> string.

(** Reading the count and re-queueing changes the table only by returning. *)
Lemma retry_raise_keeps_jobs id msg env w e w1 :
  bind (get_retry_count_io id) (fun r => requeue_with_backoff_io cfg id r msg) env w
  = (Raise e, w1) ->
  jobs w1 = jobs w.
Proof.
  unfold bind, get_retry_count_io, requeue_with_backoff_io, db_round_trip.
  destruct (db_fault env (tick w)); [now intros [= _ <-]|].
  cbn [tick next_tick]. destruct (db_fault env (S (tick w))); [now intros [= _ <-]|].
  discriminate.
Qed.

(** The [try] block writes to the table in its last step only: when it
    raises, the table is as it was. *)
Lemma attempt_raise_keeps_jobs id env w e w1 :
  attempt_job cfg py_repr id env w = (Raise e, w1) -> jobs w1 = jobs w.
Proof.
  unfold attempt_job. unfold bind at 1.
  unfold fetch_job_details_io at 1, db_round_trip at 1.
  destruct (db_fault env (tick w)); [now intros [= _ <-]|].
  destruct (fetch_job_details id (jobs (next_tick w)) (todos (next_tick w))
              (users (next_tick w))) as [d|].
  - destruct (d_slack_channel d) as [[|c channel]|].
    + intros Hrun. now rewrite (retry_raise_keeps_jobs _ _ _ _ _ _ Hrun).
    + unfold bind, lift. destruct (_format_message py_repr d) as [text|e0];
        [|now intros [= _ <-]].
      unfold post_to_slack, raise. destruct (SLACK_BOT_TOKEN cfg); [now intros [= _ <-]|].
      destruct (check_ack py_repr (http_at env (tick (next_tick w)))) as [[]|e0];
        [|now intros [= _ <-]].
      unfold mark_sent_io, db_round_trip.
      destruct (db_fault env _); [now intros [= _ <-] | discriminate].
    + intros Hrun. now rewrite (retry_raise_keeps_jobs _ _ _ _ _ _ Hrun).
  - intros Hrun. now rewrite (retry_raise_keeps_jobs _ _ _ _ _ _ Hrun).
Qed.

Lemma handle_failure_swallows id exc env w e1 :
  db_fault env (tick w) = Some e1
  \/ (db_fault env (tick w) = None /\ db_fault env (S (tick w)) = Some e1) ->
  (handle_failure cfg id exc env w).1 = Ok tt
  /\ jobs (handle_failure cfg id exc env w).2 = jobs w.
Proof.
  unfold handle_failure, try_except, bind, get_retry_count_io, requeue_with_backoff_io,
    db_round_trip, ret.
  intros [-> | [-> H2]]; [split; reflexivity|].
  cbn [tick next_tick]. rewrite H2. split; reflexivity.
Qed.

End Unrecorded.

(** C7, as stated, fails: the database answers while the job is fetched,
    the request to Slack raises, and the database is gone when the handler
    reads the retry count.  The handler's exception is swallowed: the call
    returns, and the table is what it was, the job still [processing] with no
    error and its old count, not the row [requeue_with_backoff] would write. *)
Lemma swallowed_failure_is_not_requeued :
  (attempt_job default_config Sample.no_repr 6 Sample.db_drops Sample.stale_world).1
  = Raise "timed out"
  /\ (process_job default_config Sample.no_repr (mkRow 6 12 1) Sample.db_drops
        Sample.stale_world).1 = Ok tt
  /\ jobs (process_job default_config Sample.no_repr (mkRow 6 12 1) Sample.db_drops
             Sample.stale_world).2
     = jobs Sample.stale_world
  /\ jobs Sample.stale_world !! 6 = Some Sample.stale
  /\ requeue_with_backoff default_config 1000 6 0 "timed out" (jobs Sample.stale_world) !! 6
     <> Some Sample.stale.
Proof.
  split; [reflexivity|]. split; [reflexivity|]. split; [vm_compute; reflexivity|].
  split; [reflexivity|]. vm_compute. discriminate.
Qed.

(** C7, amended: no exception leaves the processing of one job:
    [process_job] returns for every row, in every world and environment.  So
    after a claim that returned [rows], [process_batch] returns their number
    having run [process_job] on every row in turn, whatever happened to the
    rows before it.  An exception [e] raised in the [try] block is turned
    into [requeue_with_backoff] with the count read back and [e] as the
    message when the handler's two round trips go through; when one of them
    raises, that exception is swallowed too and the table is left as it was
    before the job was processed. *)
Theorem process_batch_isolates_failures (cfg : Config) (py_repr : json -> string)
    (env : Env) :
  (forall row w, exists w', process_job cfg py_repr row env w = (Ok tt, w'))
  /\ (forall w rows w1,
        claim_jobs_io cfg (MAX_BATCH cfg) env w = (Ok rows, w1) ->
        process_batch cfg py_repr env w
        = (Ok (Z.of_nat (length rows)),
           foldl (fun w0 row => (process_job cfg py_repr row env w0).2) w1 rows))
  /\ (forall row w e w1,
        attempt_job cfg py_repr (row_id row) env w = (Raise e, w1) ->
        db_fault env (tick w1) = None ->
        db_fault env (S (tick w1)) = None ->
        process_job cfg py_repr row env w
        = (Ok tt,
           set_jobs (next_tick (next_tick w1))
             (requeue_with_backoff cfg (now_at env (S (tick w1))) (row_id row)
                (get_retry_count (row_id row) (jobs w1)) e (jobs w1))))
  /\ (forall row w e w1 e1,
        attempt_job cfg py_repr (row_id row) env w = (Raise e, w1) ->
        db_fault env (tick w1) = Some e1
        \/ (db_fault env (tick w1) = None /\ db_fault env (S (tick w1)) = Some e1) ->
        (process_job cfg py_repr row env w).1 = Ok tt
        /\ jobs (process_job cfg py_repr row env w).2 = jobs w).
Proof.
  split; [|split; [|split]].
  - intros row w. apply process_job_returns.
  - intros w rows w1. apply process_batch_run.
  - intros row w e w1 Hraise H1 H2. unfold process_job, try_except.
    rewrite Hraise. now apply handle_failure_requeues.
  - intros row w e w1 e1 Hraise Hfault. unfold process_job, try_except. rewrite Hraise.
    destruct (handle_failure_swallows cfg (row_id row) e env w1 e1 Hfault) as [Hok Hjobs].
    split; [exact Hok|]. rewrite Hjobs.
    exact (attempt_raise_keeps_jobs _ _ _ _ _ _ _ Hraise).
Qed.

Lemma process_batch_isolates_failures_witness :
  (process_batch default_config Sample.no_repr
     (Sample.env_of (HttpResponse 200 (Ok Sample.ack_not_ok))) Sample.world).1 = Ok 2
  /\ status <$> jobs (process_job default_config Sample.no_repr (mkRow 2 12 1)
                        (Sample.env_of (HttpRaise "timed out")) Sample.world).2 !! 2
     = Some Pending
  /\ jobs (process_job default_config Sample.no_repr (mkRow 6 12 1) Sample.db_drops
             Sample.stale_world).2
     = jobs Sample.stale_world.
Proof.
  destruct (process_batch_isolates_failures default_config Sample.no_repr
              (Sample.env_of (HttpResponse 200 (Ok Sample.ack_not_ok)))) as (_ & Hrun & _).
  destruct (process_batch_isolates_failures default_config Sample.no_repr
              (Sample.env_of (HttpRaise "timed out"))) as (_ & _ & Hcatch & _).
  destruct (process_batch_isolates_failures default_config Sample.no_repr Sample.db_drops)
    as (_ & _ & _ & Hswallow).
  split; [|split].
  - erewrite Hrun; [|vm_compute; reflexivity]. reflexivity.
  - erewrite Hcatch; [|vm_compute; reflexivity | reflexivity | reflexivity].
    vm_compute. reflexivity.
  - eapply (Hswallow (mkRow 6 12 1) Sample.stale_world);
      [vm_compute; reflexivity | left; reflexivity].
Defined.

(** C5, as stated, fails: [requeue_with_backoff] has no condition on the
    status, and called on a sent job it makes the job pending again. *)
Lemma requeue_reopens_sent_job :
  Sample.queue !! 4 = Some Sample.done
  /\ status Sample.done = Sent
  /\ status <$> requeue_with_backoff default_config 1000 4 0 "late" Sample.queue !! 4
     = Some Pending.
Proof. repeat split; reflexivity. Qed.

(** C5, amended: a job whose status is sent or failed is never among the
    rows a claim returns and the claim leaves it as it is; [process_batch]
    leaves it as it is, over any number of batches, and no claim after them
    returns it.  ([mark_sent] and [requeue_with_backoff] themselves take any
    id; [process_batch] gives them the ids it has just claimed.) *)
Theorem terminal_jobs_stay_terminal (cfg : Config) (py_repr : json -> string)
    (id : Z) (j : Job) :
  is_terminal (status j) = true ->
  (forall locked plan now limit (st : gmap Z Job) rows st',
     st !! id = Some j ->
     claim_jobs cfg locked plan now limit st = Ok (rows, st') ->
     (id ∉ row_id <$> rows) /\ st' !! id = Some j)
  /\ (forall envs w,
        jobs w !! id = Some j ->
        jobs (after_batches cfg py_repr envs w) !! id = Some j)
  /\ (forall envs w limit env rows w',
        jobs w !! id = Some j ->
        claim_jobs_io cfg limit env (after_batches cfg py_repr envs w) = (Ok rows, w') ->
        (id ∉ row_id <$> rows) /\ jobs w' !! id = Some j).
Proof.
  intros Hterm. split; [|split].
  - intros locked plan now limit st rows st' Hj Hclaim.
    exact (claim_jobs_skips_terminal cfg _ _ _ _ _ _ _ _ _ Hclaim Hj Hterm).
  - intros envs w Hj. now apply after_batches_keeps_terminal.
  - intros envs w limit env rows w' Hj Hio.
    pose proof (after_batches_keeps_terminal cfg py_repr envs w id j Hj Hterm) as Hj'.
    destruct (claim_jobs_io_cases _ _ _ _ _ _ Hio) as [[_ [e He]] | (rows' & Hr & Hclaim)];
      [discriminate|].
    injection Hr as <-.
    exact (claim_jobs_skips_terminal cfg _ _ _ _ _ _ _ _ _ Hclaim Hj' Hterm).
Qed.

Lemma terminal_jobs_stay_terminal_witness :
  jobs (after_batches default_config Sample.no_repr
          [Sample.env_of (HttpResponse 200 (Ok Sample.ack_ok));
           Sample.env_of (HttpRaise "timed out")] Sample.world) !! 4
  = Some Sample.done.
Proof.
  destruct (terminal_jobs_stay_terminal default_config Sample.no_repr 4 Sample.done)
    as (_ & Hkeep & _); [reflexivity|].
  apply Hkeep. reflexivity.
Defined.

(** * Further properties of the worker *)

(** ** Updates by id, composed *)

(** X1: [mark_sent] twice is [mark_sent] once, at the later time: the row
    stays sent and the second call only renews [posted_at]. *)
Theorem mark_sent_twice (t1 t2 id : Z) (st : gmap Z Job) :
  mark_sent t2 id (mark_sent t1 id st) = mark_sent t2 id st.
Proof.
  apply map_eq. intros i. destruct (decide (i = id)) as [->|Hne].
  - rewrite !mark_sent_lookup. destruct (st !! id) as [j|]; reflexivity.
  - rewrite !mark_sent_lookup_ne by congruence. reflexivity.
Qed.

(** X2: an id with no row: both updates match nothing and the table is what
    it was (no row is created, nothing raises). *)
Theorem update_of_missing_row (cfg : Config) (now id r : Z) (e : string)
    (st : gmap Z Job) :
  st !! id = None ->
  mark_sent now id st = st /\ requeue_with_backoff cfg now id r e st = st.
Proof.
  intros Hnone. split; apply map_eq; intros i; destruct (decide (i = id)) as [->|Hne].
  - now rewrite mark_sent_lookup, Hnone.
  - now rewrite mark_sent_lookup_ne by congruence.
  - now rewrite requeue_lookup, Hnone.
  - now rewrite requeue_lookup_ne by congruence.
Qed.

Lemma update_of_missing_row_witness :
  mark_sent 1000 99 Sample.queue = Sample.queue
  /\ requeue_with_backoff default_config 1000 99 0 "boom" Sample.queue = Sample.queue.
Proof. apply update_of_missing_row. reflexivity. Defined.

(** X3: the count read back after [requeue_with_backoff] is one more than
    the count stored before, in either branch. *)
Theorem retry_count_read_back (cfg : Config) (now id r c : Z) (e : string)
    (st : gmap Z Job) (j : Job) :
  st !! id = Some j ->
  retry_count j = Some c ->
  get_retry_count id (requeue_with_backoff cfg now id r e st) = c + 1.
Proof.
  intros Hj Hc. unfold get_retry_count, fetchval_retry_count.
  rewrite requeue_lookup, Hj.
  destruct (r + 1 >=? MAX_RETRIES cfg); simpl; rewrite Hc; simpl;
    destruct (Z.eqb_spec (c + 1) 0); congruence.
Qed.

Lemma retry_count_read_back_witness :
  get_retry_count 2 (requeue_with_backoff default_config 1000 2 1 "boom" Sample.queue) = 2.
Proof.
  apply (retry_count_read_back default_config 1000 2 1 1 "boom" Sample.queue
           Sample.due_early); reflexivity.
Defined.

(** ** Claims, composed *)

(** X4: two claims one after the other return disjoint sets of jobs,
    whatever their times and limits: a claimed job is [processing], and a
    claim takes [pending] jobs only. *)
Theorem successive_claims_disjoint (cfg : Config) (l1 l2 : Z -> bool) (p1 p2 : Plan)
    (t1 t2 n1 n2 : Z) (st st1 st2 : gmap Z Job) (rows1 rows2 : list ClaimedRow) :
  claim_jobs cfg l1 p1 t1 n1 st = Ok (rows1, st1) ->
  claim_jobs cfg l2 p2 t2 n2 st1 = Ok (rows2, st2) ->
  forall id, id ∈ row_id <$> rows1 -> id ∉ row_id <$> rows2.
Proof.
  intros H1 H2 id Hin1 Hin2.
  destruct (claim_jobs_claimed _ _ _ _ _ _ _ _ _ H1 Hin1) as (j & _ & _ & Hst1).
  destruct (claim_jobs_claimed _ _ _ _ _ _ _ _ _ H2 Hin2) as (j' & Hj' & Hel & _).
  rewrite Hst1 in Hj'. injection Hj' as <-.
  apply eligible_claimable in Hel as (Hpending & _). discriminate.
Qed.

Lemma successive_claims_disjoint_witness :
  2 ∈ row_id <$> [mkRow 2 12 1] /\ 2 ∉ row_id <$> [mkRow 1 11 1].
Proof.
  split; [left|].
  apply (successive_claims_disjoint default_config Sample.unlocked Sample.unlocked
           Sample.by_id Sample.by_id 1000 2000 1 10 Sample.queue
           (alter (claim_row default_config 1000) 2 Sample.queue)
           (alter (claim_row default_config 2000) 1
              (alter (claim_row default_config 1000) 2 Sample.queue))
           [mkRow 2 12 1] [mkRow 1 11 1]);
    [vm_compute; reflexivity | vm_compute; reflexivity | left].
Defined.

(** A job that is not pending does not qualify, whatever its lease. *)
Lemma not_pending_not_eligible now j : status j <> Pending -> eligible now j = false.
Proof.
  intros Hs. unfold eligible. rewrite bool_decide_eq_false_2 by exact Hs. reflexivity.
Qed.

Lemma claim_jobs_skips_not_pending cfg locked plan now limit (st : gmap Z Job) rows st' id j :
  claim_jobs cfg locked plan now limit st = Ok (rows, st') ->
  st !! id = Some j -> status j <> Pending ->
  (id ∉ row_id <$> rows) /\ st' !! id = Some j.
Proof.
  intros Hclaim Hj Hs.
  assert (Hnot : id ∉ row_id <$> rows).
  { intros Hin. destruct (claim_jobs_claimed _ _ _ _ _ _ _ _ _ Hclaim Hin) as (j0 & Hj0 & Hel & _).
    assert (j0 = j) as -> by congruence.
    rewrite (not_pending_not_eligible now j Hs) in Hel. discriminate. }
  split; [exact Hnot|]. now rewrite (claim_jobs_unclaimed _ _ _ _ _ _ _ _ _ Hclaim Hnot).
Qed.

Lemma after_batch_keeps_not_pending cfg py_repr env w id j :
  jobs w !! id = Some j -> status j <> Pending ->
  jobs (after_batch cfg py_repr w env) !! id = Some j.
Proof.
  intros Hj Hs. unfold after_batch.
  destruct (claim_jobs_io cfg (MAX_BATCH cfg) env w) as [r w1] eqn:Hio.
  destruct (claim_jobs_io_cases _ _ _ _ _ _ Hio) as [[Hsame [e ->]] | (rows & -> & Hclaim)].
  - rewrite (process_batch_claim_fails cfg py_repr env w e w1 Hio). simpl. now rewrite Hsame.
  - rewrite (process_batch_run cfg py_repr env w rows w1 Hio). cbn [snd].
    destruct (claim_jobs_skips_not_pending _ _ _ _ _ _ _ _ _ _ Hclaim Hj Hs) as [Hnot Hj1].
    pose proof (for_each_process_job cfg py_repr rows env w1) as Hloop.
    rewrite (keeps_process_jobs cfg py_repr rows env w1 _ _ Hloop id Hnot). exact Hj1.
Qed.

(** X5: a job that is [processing] when a batch starts (left so by a worker
    that stopped, or by a failure that could not be recorded) is never
    claimed again, also when its lease has run out, and no number of
    batches changes it: claims look at [pending] jobs only. *)
Theorem processing_job_is_never_reclaimed (cfg : Config) (py_repr : json -> string)
    (id : Z) (j : Job) :
  status j = Processing ->
  (forall locked plan now limit (st : gmap Z Job) rows st',
     st !! id = Some j ->
     claim_jobs cfg locked plan now limit st = Ok (rows, st') ->
     (id ∉ row_id <$> rows) /\ st' !! id = Some j)
  /\ (forall envs w,
        jobs w !! id = Some j ->
        jobs (after_batches cfg py_repr envs w) !! id = Some j).
Proof.
  intros Hs. assert (Hnp : status j <> Pending) by (rewrite Hs; discriminate).
  split.
  - intros locked plan now limit st rows st' Hj Hclaim.
    exact (claim_jobs_skips_not_pending _ _ _ _ _ _ _ _ _ _ Hclaim Hj Hnp).
  - intros envs. induction envs as [|env envs IH]; intros w Hj; [exact Hj|].
    simpl. apply IH. now apply after_batch_keeps_not_pending.
Qed.

Lemma processing_job_is_never_reclaimed_witness :
  jobs (after_batches default_config Sample.no_repr
          [Sample.env_of (HttpResponse 200 (Ok Sample.ack_ok));
           Sample.env_of (HttpResponse 200 (Ok Sample.ack_ok))]
          Sample.stale_world) !! 6
  = Some Sample.stale.
Proof.
  destruct (processing_job_is_never_reclaimed default_config Sample.no_repr 6 Sample.stale)
    as (_ & Hkeep); [reflexivity|].
  apply Hkeep. reflexivity.
Defined.

(** ** Backoff and the next claim *)

(** X6: a job put back by [requeue_with_backoff] at [now] is due exactly
    [backoff (r + 1)] seconds later; for a base delay and a cap that are not
    negative that is between [now] and [now] plus the cap, and no claim made
    before that time returns the job. *)
Theorem requeued_job_waits_for_backoff (cfg : Config) (now id r : Z) (e : string)
    (st : gmap Z Job) (j : Job) :
  st !! id = Some j ->
  0 <= r -> r + 1 < MAX_RETRIES cfg ->
  0 <= BACKOFF_BASE_SECS cfg -> 0 <= BACKOFF_MAX_SECS cfg ->
  exists j',
    requeue_with_backoff cfg now id r e st !! id = Some j'
    /\ scheduled_for j' = now + make_interval (_seconds_backoff cfg (r + 1))
    /\ now <= scheduled_for j' <= now + make_interval (BACKOFF_MAX_SECS cfg)
    /\ forall locked plan t limit rows st',
         t < scheduled_for j' ->
         claim_jobs cfg locked plan t limit (requeue_with_backoff cfg now id r e st)
         = Ok (rows, st') ->
         id ∉ row_id <$> rows.
Proof.
  intros Hj Hr Hmax Hbase Hcap.
  assert (Hlookup := requeue_lookup cfg now id r e st). rewrite Hj in Hlookup.
  rewrite Z.geb_leb, (proj2 (Z.leb_gt _ _)) in Hlookup by lia. simpl in Hlookup.
  eexists. split; [exact Hlookup|]. cbn [scheduled_for retry_row].
  split; [reflexivity|].
  assert (Hlo : 0 <= _seconds_backoff cfg (r + 1)).
  { rewrite backoff_unfold. apply Z.min_glb; [|assumption].
    apply Z.mul_nonneg_nonneg; [assumption|]. apply Z.pow_nonneg. lia. }
  pose proof (backoff_le_cap cfg (r + 1)) as Hhi.
  split; [unfold make_interval; lia|].
  intros locked plan t limit rows st' Ht Hclaim Hin.
  destruct (claim_jobs_claimed _ _ _ _ _ _ _ _ _ Hclaim Hin) as (j0 & Hj0 & Hel & _).
  rewrite Hlookup in Hj0. injection Hj0 as <-.
  apply eligible_claimable in Hel as (_ & Hdue & _). cbn [scheduled_for retry_row] in Hdue.
  lia.
Qed.

Lemma requeued_job_waits_for_backoff_witness :
  exists j',
    requeue_with_backoff default_config 1000 1 0 "boom" Sample.queue !! 1 = Some j'
    /\ scheduled_for j' = 1000 + 120 * 1000000.
Proof.
  destruct (requeued_job_waits_for_backoff default_config 1000 1 0 "boom" Sample.queue
              Sample.due_late) as (j' & Hj' & Hdue & _);
    [reflexivity | lia | simpl; lia | simpl; lia | simpl; lia |].
  exists j'. split; [exact Hj' | exact Hdue].
Defined.

(** ** Invariants of the batch loop *)

Section Transforms.

Variable R : World -> World -> Prop.
Hypothesis R_refl : forall w, R w w.
Hypothesis R_trans : forall w1 w2 w3, R w1 w2 -> R w2 w3 -> R w1 w3.

Lemma transforms_ret {A} (a : A) : transforms R (ret a).
Proof. intros env w r w' [= _ <-]. apply R_refl. Qed.

Lemma transforms_lift {A} (x : Res A) : transforms R (lift x).
Proof. intros env w r w' [= _ <-]. apply R_refl. Qed.

Lemma transforms_bind {A B} (m : M A) (k : A -> M B) :
  transforms R m -> (forall a, transforms R (k a)) -> transforms R (bind m k).
Proof.
  intros Hm Hk env w r w' Hrun. unfold bind in Hrun.
  destruct (m env w) as [[a|e] w1] eqn:Em.
  - eapply R_trans; [exact (Hm _ _ _ _ Em) | exact (Hk a _ _ _ _ Hrun)].
  - injection Hrun as _ <-. exact (Hm _ _ _ _ Em).
Qed.

Lemma transforms_try_except {A} (m : M A) (h : string -> M A) :
  transforms R m -> (forall e, transforms R (h e)) -> transforms R (try_except m h).
Proof.
  intros Hm Hh env w r w' Hrun. unfold try_except in Hrun.
  destruct (m env w) as [[a|e] w1] eqn:Em.
  - injection Hrun as _ <-. exact (Hm _ _ _ _ Em).
  - eapply R_trans; [exact (Hm _ _ _ _ Em) | exact (Hh e _ _ _ _ Hrun)].
Qed.

Lemma transforms_for_each {A} (body : A -> M unit) (l : list A) :
  (forall x, transforms R (body x)) -> transforms R (for_each body l).
Proof.
  intros Hbody. induction l as [|x l IH]; [apply transforms_ret|].
  simpl. apply transforms_bind; [apply Hbody | intros _; exact IH].
Qed.

End Transforms.

Lemma count_le_refl c : count_le c c.
Proof. destruct c; simpl; [lia | exact I]. Qed.

Lemma count_le_trans a b c : count_le a b -> count_le b c -> count_le a c.
Proof. destruct a, b, c; simpl; try tauto; lia. Qed.

Lemma count_le_succ c : count_le c (sql_succ c).
Proof. destruct c; simpl; [lia | exact I]. Qed.

Lemma job_advances_refl j : job_advances j j.
Proof. repeat split. apply count_le_refl. Qed.

Lemma job_advances_trans j1 j2 j3 :
  job_advances j1 j2 -> job_advances j2 j3 -> job_advances j1 j3.
Proof.
  intros (Ht1 & Hu1 & Hc1) (Ht2 & Hu2 & Hc2).
  repeat split; [congruence | congruence | eapply count_le_trans; eassumption].
Qed.

Lemma queue_advances_refl (st : gmap Z Job) : queue_advances st st.
Proof. intros id. destruct (st !! id); [apply job_advances_refl | exact I]. Qed.

Lemma queue_advances_trans (st1 st2 st3 : gmap Z Job) :
  queue_advances st1 st2 -> queue_advances st2 st3 -> queue_advances st1 st3.
Proof.
  intros H12 H23 id. specialize (H12 id). specialize (H23 id).
  destruct (st1 !! id), (st2 !! id), (st3 !! id); try tauto.
  eapply job_advances_trans; eassumption.
Qed.

(** Every statement of the worker advances the queue. *)
Lemma queue_advances_alter (f : Job -> Job) id (st : gmap Z Job) :
  (forall j, job_advances j (f j)) -> queue_advances st (alter f id st).
Proof.
  intros Hf i. destruct (decide (i = id)) as [->|Hne].
  - rewrite lookup_alter_eq. destruct (st !! id); simpl; [apply Hf | exact I].
  - rewrite lookup_alter_ne by congruence.
    destruct (st !! i); [apply job_advances_refl | exact I].
Qed.

Lemma mark_sent_advances now id (st : gmap Z Job) : queue_advances st (mark_sent now id st).
Proof. apply queue_advances_alter. intros j. repeat split. apply count_le_refl. Qed.

Lemma requeue_advances cfg now id r e (st : gmap Z Job) :
  queue_advances st (requeue_with_backoff cfg now id r e st).
Proof.
  unfold requeue_with_backoff. cbv zeta.
  destruct (r + 1 >=? MAX_RETRIES cfg); apply queue_advances_alter;
    intros j; repeat split; apply count_le_succ.
Qed.

Lemma claim_jobs_advances cfg locked plan now limit (st : gmap Z Job) rows st' :
  claim_jobs cfg locked plan now limit st = Ok (rows, st') -> queue_advances st st'.
Proof.
  intros Hclaim. apply claim_jobs_inv in Hclaim as (_ & _ & ->). intros id.
  rewrite map_lookup_imap. destruct (st !! id) as [j|]; [|exact I]. simpl.
  case_bool_decide; [|apply job_advances_refl]. repeat split. apply count_le_refl.
Qed.

Section BatchInvariants.

Variable cfg : Config.
Variable py_repr : json -> string.

Let advances (w w' : World) : Prop := queue_advances (jobs w) (jobs w').

Lemma advances_refl w : advances w w.
Proof. apply queue_advances_refl. Qed.

Lemma advances_trans w1 w2 w3 : advances w1 w2 -> advances w2 w3 -> advances w1 w3.
Proof. apply queue_advances_trans. Qed.

Local Ltac jobs_unchanged :=
  unfold advances; cbn [jobs next_tick set_jobs log_post]; apply queue_advances_refl.

Lemma process_job_advances row : transforms advances (process_job cfg py_repr row).
Proof.
  assert (Hread : forall id, transforms advances (get_retry_count_io id)).
  { intros id env w r w' Hrun. unfold get_retry_count_io, db_round_trip in Hrun.
    destruct (db_fault env (tick w)); injection Hrun as _ <-; jobs_unchanged. }
  assert (Hrequeue : forall id r e, transforms advances (requeue_with_backoff_io cfg id r e)).
  { intros id r e env w res w' Hrun. unfold requeue_with_backoff_io, db_round_trip in Hrun.
    destruct (db_fault env (tick w)); injection Hrun as _ <-; [jobs_unchanged|].
    apply requeue_advances. }
  assert (Hretry : forall id e,
            transforms advances
              (bind (get_retry_count_io id) (fun r => requeue_with_backoff_io cfg id r e))).
  { intros id e.
    apply transforms_bind; [apply advances_trans | apply Hread | intros r; apply Hrequeue]. }
  unfold process_job, handle_failure, attempt_job.
  apply transforms_try_except; try apply advances_refl; try apply advances_trans.
  - apply transforms_bind; try apply advances_refl; try apply advances_trans.
    + intros env w r w' Hrun. unfold fetch_job_details_io, db_round_trip in Hrun.
      destruct (db_fault env (tick w)); injection Hrun as _ <-; jobs_unchanged.
    + intros [details|]; [|apply Hretry].
      destruct (d_slack_channel details) as [[|c channel]|]; try apply Hretry.
      apply transforms_bind; try apply advances_refl; try apply advances_trans.
      { apply transforms_lift, advances_refl. }
      intros text. apply transforms_bind; try apply advances_refl; try apply advances_trans.
      { intros env w r w' Hrun. unfold post_to_slack in Hrun.
        destruct (SLACK_BOT_TOKEN cfg); injection Hrun as _ <-; jobs_unchanged. }
      intros _ env w r w' Hrun. unfold mark_sent_io, db_round_trip in Hrun.
      destruct (db_fault env (tick w)); injection Hrun as _ <-; [jobs_unchanged|].
      apply mark_sent_advances.
  - intros e. apply transforms_try_except; try apply advances_refl; try apply advances_trans.
    + apply Hretry.
    + intros _. apply transforms_ret, advances_refl.
Qed.

Lemma process_batch_advances : transforms advances (process_batch cfg py_repr).
Proof.
  unfold process_batch.
  apply transforms_bind; try apply advances_refl; try apply advances_trans.
  - intros env w r w' Hrun.
    destruct (claim_jobs_io_cases cfg _ _ _ _ _ Hrun) as [[Hsame _] | (rows & _ & Hclaim)].
    + unfold advances. rewrite Hsame. apply queue_advances_refl.
    + exact (claim_jobs_advances _ _ _ _ _ _ _ _ Hclaim).
  - intros [|row rows]; [apply transforms_ret, advances_refl|].
    apply transforms_bind; try apply advances_refl; try apply advances_trans.
    + apply transforms_for_each; try apply advances_refl; try apply advances_trans.
      apply process_job_advances.
    + intros _. apply transforms_ret, advances_refl.
Qed.

Lemma after_batches_advances envs w :
  queue_advances (jobs w) (jobs (after_batches cfg py_repr envs w)).
Proof.
  revert w. induction envs as [|env envs IH]; intros w; [apply queue_advances_refl|].
  simpl. eapply queue_advances_trans; [|apply IH].
  unfold after_batch.
  destruct (process_batch cfg py_repr env w) as [r w'] eqn:Hrun.
  exact (process_batch_advances _ _ _ _ Hrun).
Qed.

End BatchInvariants.

(** X7: over any number of batches, whatever fails in them, the worker
    neither deletes nor adds a row, never changes the todo or the user of a
    job, and never lowers a retry count. *)
Theorem worker_keeps_rows_and_counts (cfg : Config) (py_repr : json -> string)
    (envs : list Env) (w : World) (id : Z) :
  (jobs w !! id = None -> jobs (after_batches cfg py_repr envs w) !! id = None)
  /\ (forall j, jobs w !! id = Some j ->
        exists j',
          jobs (after_batches cfg py_repr envs w) !! id = Some j'
          /\ todo_id j' = todo_id j /\ user_id j' = user_id j
          /\ forall c, retry_count j = Some c ->
               exists c', retry_count j' = Some c' /\ c <= c').
Proof.
  pose proof (after_batches_advances cfg py_repr envs w id) as Hadv.
  split.
  - intros Hnone. rewrite Hnone in Hadv.
    destruct (jobs (after_batches cfg py_repr envs w) !! id); [contradiction | reflexivity].
  - intros j Hj. rewrite Hj in Hadv.
    destruct (jobs (after_batches cfg py_repr envs w) !! id) as [j'|]; [|contradiction].
    destruct Hadv as (Ht & Hu & Hc). exists j'. repeat split; try assumption.
    intros c Hcount. rewrite Hcount in Hc.
    destruct (retry_count j') as [c'|]; [|contradiction]. exists c'. auto.
Qed.

Lemma worker_keeps_rows_and_counts_witness :
  jobs (after_batches default_config Sample.no_repr
          [Sample.env_of (HttpResponse 200 (Ok Sample.ack_not_ok))] Sample.world) !! 99
  = None
  /\ exists j',
       jobs (after_batches default_config Sample.no_repr
               [Sample.env_of (HttpResponse 200 (Ok Sample.ack_not_ok))] Sample.world) !! 2
       = Some j'
       /\ exists c', retry_count j' = Some c' /\ 1 <= c'.
Proof.
  split.
  - apply (worker_keeps_rows_and_counts default_config Sample.no_repr
             [Sample.env_of (HttpResponse 200 (Ok Sample.ack_not_ok))] Sample.world 99).
    reflexivity.
  - destruct (worker_keeps_rows_and_counts default_config Sample.no_repr
                [Sample.env_of (HttpResponse 200 (Ok Sample.ack_not_ok))] Sample.world 2)
      as (_ & Hsome).
    destruct (Hsome Sample.due_early) as (j' & Hj' & _ & _ & Hcount); [reflexivity|].
    exists j'. split; [exact Hj'|]. apply Hcount. reflexivity.
Defined.

(** ** Requests to Slack *)

Lemma posted_at_most_refl n w : posted_at_most n w w.
Proof. exists []. split; [now rewrite app_nil_r | simpl; lia]. Qed.

Lemma posted_at_most_trans n k w1 w2 w3 :
  posted_at_most n w1 w2 -> posted_at_most k w2 w3 -> posted_at_most (n + k) w1 w3.
Proof.
  intros (new1 & H1 & Hn) (new2 & H2 & Hk). exists (new1 ++ new2). split.
  - now rewrite H2, H1, app_assoc.
  - rewrite length_app. lia.
Qed.

Lemma posted_at_most_weaken n k w w' :
  (n <= k)%nat -> posted_at_most n w w' -> posted_at_most k w w'.
Proof. intros Hnk (new & H & Hn). exists new. split; [exact H | lia]. Qed.

Section Outbox.

Variable cfg : Config.
Variable py_repr : json -> string.

Lemma posts_bind n k {A B} (m : M A) (f : A -> M B) :
  transforms (posted_at_most n) m ->
  (forall a, transforms (posted_at_most k) (f a)) ->
  transforms (posted_at_most (n + k)) (bind m f).
Proof.
  intros Hm Hf env w r w' Hrun. unfold bind in Hrun.
  destruct (m env w) as [[a|e] w1] eqn:Em.
  - eapply posted_at_most_trans; [exact (Hm _ _ _ _ Em) | exact (Hf a _ _ _ _ Hrun)].
  - injection Hrun as _ <-.
    eapply posted_at_most_weaken; [|exact (Hm _ _ _ _ Em)]. lia.
Qed.

Lemma posts_try_except n k {A} (m : M A) (h : string -> M A) :
  transforms (posted_at_most n) m ->
  (forall e, transforms (posted_at_most k) (h e)) ->
  transforms (posted_at_most (n + k)) (try_except m h).
Proof.
  intros Hm Hh env w r w' Hrun. unfold try_except in Hrun.
  destruct (m env w) as [[a|e] w1] eqn:Em.
  - injection Hrun as _ <-.
    eapply posted_at_most_weaken; [|exact (Hm _ _ _ _ Em)]. lia.
  - eapply posted_at_most_trans; [exact (Hm _ _ _ _ Em) | exact (Hh e _ _ _ _ Hrun)].
Qed.

(** A round trip to the database sends nothing. *)
Lemma posts_db_round_trip {A} (stmt : Env -> nat -> World -> Res A * World) :
  (forall env t w, outbox (stmt env t w).2 = outbox w) ->
  transforms (posted_at_most 0) (db_round_trip stmt).
Proof.
  intros Hstmt env w r w' Hrun. unfold db_round_trip in Hrun. exists []. rewrite app_nil_r.
  split; [|simpl; lia].
  destruct (db_fault env (tick w)).
  - injection Hrun as _ <-. reflexivity.
  - pose proof (Hstmt env (tick w) (next_tick w)) as Hout. rewrite Hrun in Hout. exact Hout.
Qed.

Lemma posts_fetch id : transforms (posted_at_most 0) (fetch_job_details_io id).
Proof. apply posts_db_round_trip. reflexivity. Qed.

Lemma posts_get_retry_count id : transforms (posted_at_most 0) (get_retry_count_io id).
Proof. apply posts_db_round_trip. reflexivity. Qed.

Lemma posts_mark_sent id : transforms (posted_at_most 0) (mark_sent_io id).
Proof. apply posts_db_round_trip. reflexivity. Qed.

Lemma posts_requeue id r e :
  transforms (posted_at_most 0) (requeue_with_backoff_io cfg id r e).
Proof. apply posts_db_round_trip. reflexivity. Qed.

Lemma posts_claim limit : transforms (posted_at_most 0) (claim_jobs_io cfg limit).
Proof.
  apply posts_db_round_trip. intros env t w.
  destruct (claim_jobs cfg _ _ _ limit (jobs w)) as [[rows js]|e]; reflexivity.
Qed.

Lemma posts_retry id e :
  transforms (posted_at_most 0)
    (bind (get_retry_count_io id) (fun r => requeue_with_backoff_io cfg id r e)).
Proof.
  apply (posts_bind 0 0); [apply posts_get_retry_count | intros r; apply posts_requeue].
Qed.

(** [post_to_slack] sends one request, or none when there is no token. *)
Lemma posts_post_to_slack channel text :
  transforms (posted_at_most 1) (post_to_slack cfg py_repr channel text).
Proof.
  intros env w r w' Hrun. unfold post_to_slack in Hrun.
  destruct (SLACK_BOT_TOKEN cfg); injection Hrun as _ <-.
  - apply posted_at_most_refl.
  - exists [(channel, text)]. split; [reflexivity | simpl; lia].
Qed.

Lemma posts_process_job row : transforms (posted_at_most 1) (process_job cfg py_repr row).
Proof.
  unfold process_job. apply (posts_try_except 1 0).
  - unfold attempt_job. apply (posts_bind 0 1); [apply posts_fetch|].
    intros [details|].
    + destruct (d_slack_channel details) as [[|c channel]|].
      * intros env w r w' Hrun.
        eapply posted_at_most_weaken; [|exact (posts_retry _ _ _ _ _ _ Hrun)]. lia.
      * apply (posts_bind 0 1).
        { intros env w r w' [= _ <-]. apply posted_at_most_refl. }
        intros text. apply (posts_bind 1 0); [apply posts_post_to_slack|].
        intros _. apply posts_mark_sent.
      * intros env w r w' Hrun.
        eapply posted_at_most_weaken; [|exact (posts_retry _ _ _ _ _ _ Hrun)]. lia.
    + intros env w r w' Hrun.
      eapply posted_at_most_weaken; [|exact (posts_retry _ _ _ _ _ _ Hrun)]. lia.
  - intros e. unfold handle_failure. apply (posts_try_except 0 0); [apply posts_retry|].
    intros _ env w r w' [= _ <-]. apply posted_at_most_refl.
Qed.

Lemma posts_process_jobs rows :
  transforms (posted_at_most (length rows)) (for_each (process_job cfg py_repr) rows).
Proof.
  induction rows as [|row rows IH].
  - intros env w r w' [= _ <-]. apply posted_at_most_refl.
  - simpl. apply (posts_bind 1 (length rows)); [apply posts_process_job | intros _; exact IH].
Qed.

End Outbox.

(** X8: one call of [process_batch] sends at most one request to Slack per
    job it claimed, so at most as many as the number it returns and at most
    [MAX_BATCH]; it removes nothing from what was sent before, and when it
    raises (the claim failed) it has sent nothing. *)
Theorem process_batch_posts_at_most_claimed (cfg : Config) (py_repr : json -> string)
    (env : Env) (w : World) :
  exists new,
    outbox (process_batch cfg py_repr env w).2 = outbox w ++ new
    /\ (forall n, (process_batch cfg py_repr env w).1 = Ok n -> Z.of_nat (length new) <= n)
    /\ (forall e, (process_batch cfg py_repr env w).1 = Raise e -> new = [])
    /\ Z.of_nat (length new) <= Z.max 0 (MAX_BATCH cfg).
Proof.
  destruct (claim_jobs_io cfg (MAX_BATCH cfg) env w) as [[rows|e] w1] eqn:Hio.
  - rewrite (process_batch_run cfg py_repr env w rows w1 Hio). cbn [fst snd].
    destruct (posts_claim cfg _ _ _ _ _ Hio) as (new0 & Hout0 & Hlen0).
    pose proof (for_each_process_job cfg py_repr rows env w1) as Hloop.
    destruct (posts_process_jobs cfg py_repr rows _ _ _ _ Hloop) as (new & Hout & Hlen).
    destruct new0; [|simpl in Hlen0; lia]. rewrite app_nil_r in Hout0.
    exists new. rewrite Hout, Hout0. split; [reflexivity|].
    split; [intros n [= <-]; lia|]. split; [discriminate|].
    destruct (claim_jobs_io_cases cfg _ _ _ _ _ Hio) as [[_ [e' He']] | (rows' & Hr & Hclaim)];
      [discriminate|].
    injection Hr as <-. apply claim_jobs_inv in Hclaim as (Hlim & Hids & _).
    pose proof (claim_cte_length (locked_at env (tick w)) (plan_at env (tick w)) (now_at env (tick w))
                  (MAX_BATCH cfg) (jobs w)) as Hcte.
    assert (length rows = length (claim_cte (locked_at env (tick w)) (plan_at env (tick w)) (now_at env (tick w))
                                    (MAX_BATCH cfg) (jobs w))) as Hrows.
    { rewrite <- (length_fmap row_id rows), (Permutation_length Hids). apply length_fmap. }
    lia.
  - rewrite (process_batch_claim_fails cfg py_repr env w e w1 Hio). cbn [fst snd].
    destruct (posts_claim cfg _ _ _ _ _ Hio) as (new0 & Hout0 & Hlen0).
    destruct new0; [|simpl in Hlen0; lia].
    exists []. split; [exact Hout0|]. split; [discriminate|]. split; [reflexivity|].
    simpl. lia.
Qed.

Lemma process_batch_posts_at_most_claimed_witness :
  exists new,
    outbox (process_batch default_config Sample.no_repr
              (Sample.env_of (HttpResponse 200 (Ok Sample.ack_ok))) Sample.world).2
    = outbox Sample.world ++ new
    /\ Z.of_nat (length new) <= 2.
Proof.
  destruct (process_batch_posts_at_most_claimed default_config Sample.no_repr
              (Sample.env_of (HttpResponse 200 (Ok Sample.ack_ok))) Sample.world)
    as (new & Hout & Hn & _).
  exists new. split; [exact Hout|]. apply Hn. vm_compute. reflexivity.
Defined.

(** ** The paths of one job *)

Section Paths.

Variable cfg : Config.
Variable py_repr : json -> string.
Variable env : Env.

(** Every round trip to the database goes through. *)
Hypothesis db_up : forall t, db_fault env t = None.

Lemma run_fetch id w :
  fetch_job_details_io id env w
  = (Ok (fetch_job_details id (jobs w) (todos w) (users w)), next_tick w).
Proof. unfold fetch_job_details_io, db_round_trip. now rewrite db_up. Qed.

Lemma run_get_retry_count id w :
  get_retry_count_io id env w = (Ok (get_retry_count id (jobs w)), next_tick w).
Proof. unfold get_retry_count_io, db_round_trip. now rewrite db_up. Qed.

Lemma run_requeue id r e w :
  requeue_with_backoff_io cfg id r e env w
  = (Ok tt, set_jobs (next_tick w)
              (requeue_with_backoff cfg (now_at env (tick w)) id r e (jobs w))).
Proof. unfold requeue_with_backoff_io, db_round_trip. now rewrite db_up. Qed.

Lemma run_mark_sent id w :
  mark_sent_io id env w
  = (Ok tt, set_jobs (next_tick w) (mark_sent (now_at env (tick w)) id (jobs w))).
Proof. unfold mark_sent_io, db_round_trip. now rewrite db_up. Qed.

(** Reading the count and re-queueing with it. *)
Lemma run_retry id e w :
  bind (get_retry_count_io id) (fun r => requeue_with_backoff_io cfg id r e) env w
  = (Ok tt, set_jobs (next_tick (next_tick w))
              (requeue_with_backoff cfg (now_at env (S (tick w))) id
                 (get_retry_count id (jobs w)) e (jobs w))).
Proof. unfold bind. rewrite run_get_retry_count, run_requeue. reflexivity. Qed.

Lemma run_handle_failure id e w :
  handle_failure cfg id e env w
  = (Ok tt, set_jobs (next_tick (next_tick w))
              (requeue_with_backoff cfg (now_at env (S (tick w))) id
                 (get_retry_count id (jobs w)) e (jobs w))).
Proof. unfold handle_failure, try_except. now rewrite run_retry. Qed.

(** The job has no todo or no user any more, or its user has no channel:
    re-queued with a fixed message, and nothing is sent. *)
Lemma process_job_data_error row w :
  let id := row_id row in
  forall msg,
    (fetch_job_details id (jobs w) (todos w) (users w) = None
     /\ msg = "Missing job details")
    \/ (exists d, fetch_job_details id (jobs w) (todos w) (users w) = Some d
                 /\ (d_slack_channel d = None \/ d_slack_channel d = Some "")
                 /\ msg = "Missing slack_channel") ->
    process_job cfg py_repr row env w
    = (Ok tt, set_jobs (next_tick (next_tick (next_tick w)))
                (requeue_with_backoff cfg (now_at env (S (S (tick w)))) id
                   (get_retry_count id (jobs w)) msg (jobs w))).
Proof.
  intros id msg Hcase. unfold process_job, try_except, attempt_job. fold id.
  unfold bind at 1. rewrite run_fetch.
  destruct Hcase as [[-> ->] | (d & -> & Hch & ->)].
  - now rewrite run_retry.
  - destruct Hch as [-> | ->]; now rewrite run_retry.
Qed.

(** The job has a channel: what happens after the snapshot is fetched. *)
Lemma process_job_with_channel row w d c channel :
  let id := row_id row in
  fetch_job_details id (jobs w) (todos w) (users w) = Some d ->
  d_slack_channel d = Some (String c channel) ->
  process_job cfg py_repr row env w
  = match _format_message py_repr d with
    | Raise e => handle_failure cfg id e env (next_tick w)
    | Ok text =>
        match post_to_slack cfg py_repr (String c channel) text env (next_tick w) with
        | (Ok _, w1) => mark_sent_io id env w1
        | (Raise e, w1) => handle_failure cfg id e env w1
        end
    end.
Proof.
  intros id Hd Hch. unfold process_job, try_except, attempt_job. fold id.
  unfold bind at 1. rewrite run_fetch, Hd, Hch. unfold bind at 1, lift.
  destruct (_format_message py_repr d) as [text|e]; [|reflexivity].
  unfold bind.
  destruct (post_to_slack cfg py_repr (String c channel) text env (next_tick w))
    as [[[]|e] w1]; [|reflexivity].
  rewrite run_mark_sent. reflexivity.
Qed.

End Paths.

(** X9: the path of a delivery.  When the database answers, the snapshot
    has a channel, the message renders, a token is configured and Slack
    acknowledges with a truthy [ok], [process_job] sends that one message to
    that channel and marks the job sent: status [sent], [posted_at] set, lease
    and error cleared. *)
Theorem delivered_job_is_marked_sent (cfg : Config) (py_repr : json -> string)
    (env : Env) (row : ClaimedRow) (w : World) (d : Details)
    (channel text : string) (code : Z) (members : list (string * json)) (j : Job) :
  (forall t, db_fault env t = None) ->
  jobs w !! row_id row = Some j ->
  fetch_job_details (row_id row) (jobs w) (todos w) (users w) = Some d ->
  d_slack_channel d = Some channel ->
  channel <> "" ->
  _format_message py_repr d = Ok text ->
  SLACK_BOT_TOKEN cfg <> "" ->
  http_at env (S (tick w)) = HttpResponse code (Ok (JObj members)) ->
  truthy (dict_get members "ok") = true ->
  (process_job cfg py_repr row env w).1 = Ok tt
  /\ outbox (process_job cfg py_repr row env w).2 = outbox w ++ [(channel, text)]
  /\ jobs (process_job cfg py_repr row env w).2 !! row_id row
     = Some {| todo_id := todo_id j; user_id := user_id j;
               status := Sent;
               scheduled_for := scheduled_for j;
               visibility_timeout := None;
               started_at := started_at j;
               posted_at := Some (now_at env (S (S (tick w))));
               retry_count := retry_count j;
               error := None |}.
Proof.
  intros Hdb Hj Hd Hch Hne Htext Htoken Hhttp Hok.
  destruct channel as [|c channel]; [contradiction|].
  rewrite (process_job_with_channel cfg py_repr env Hdb row w d c channel Hd Hch), Htext.
  unfold post_to_slack. destruct (SLACK_BOT_TOKEN cfg) as [|c0 token]; [contradiction|].
  cbn [tick next_tick]. rewrite Hhttp. cbn [check_ack]. rewrite Hok.
  rewrite run_mark_sent by exact Hdb. cbn.
  split; [reflexivity|]. split; [reflexivity|].
  rewrite mark_sent_lookup, Hj. reflexivity.
Qed.

Lemma delivered_job_is_marked_sent_witness :
  status <$> jobs (process_job default_config Sample.no_repr (mkRow 2 12 1)
                     (Sample.env_of (HttpResponse 200 (Ok Sample.ack_ok)))
                     Sample.world).2 !! 2
  = Some Sent.
Proof.
  destruct (delivered_job_is_marked_sent default_config Sample.no_repr
              (Sample.env_of (HttpResponse 200 (Ok Sample.ack_ok))) (mkRow 2 12 1)
              Sample.world
              (mkDetails 2 12 "Submit report" (Some Sample.report_due) JNull 1 (Some "C042"))
              "C042"
              (String.concat newline
                 ["📌 Todo Reminder"; "• Description: Submit report";
                  "• Due: 2024-01-15 10:00 UTC"])
              200 [("ok", JBool true)] Sample.due_early)
    as (_ & _ & Hjob);
    [reflexivity | reflexivity | reflexivity | reflexivity | discriminate | reflexivity
    | discriminate | reflexivity | reflexivity |].
  cbn [row_id] in Hjob. rewrite Hjob. reflexivity.
Defined.

(** X10: a job whose todo or user is gone, or whose user has no channel
    (NULL or empty), is not delivered: nothing is sent to Slack, and the job
    goes through [requeue_with_backoff] with its stored count and the message
    "Missing job details", respectively "Missing slack_channel". *)
Theorem undeliverable_job_is_requeued (cfg : Config) (py_repr : json -> string)
    (env : Env) (row : ClaimedRow) (w : World) (msg : string) :
  (forall t, db_fault env t = None) ->
  (fetch_job_details (row_id row) (jobs w) (todos w) (users w) = None
   /\ msg = "Missing job details")
  \/ (exists d, fetch_job_details (row_id row) (jobs w) (todos w) (users w) = Some d
               /\ (d_slack_channel d = None \/ d_slack_channel d = Some "")
               /\ msg = "Missing slack_channel") ->
  (process_job cfg py_repr row env w).1 = Ok tt
  /\ outbox (process_job cfg py_repr row env w).2 = outbox w
  /\ jobs (process_job cfg py_repr row env w).2
     = requeue_with_backoff cfg (now_at env (S (S (tick w)))) (row_id row)
         (get_retry_count (row_id row) (jobs w)) msg (jobs w).
Proof.
  intros Hdb Hcase.
  rewrite (process_job_data_error cfg py_repr env Hdb row w msg Hcase).
  repeat split.
Qed.

Lemma undeliverable_job_is_requeued_witness :
  error <$> jobs (process_job default_config Sample.no_repr (mkRow 1 11 1)
                    (Sample.env_of (HttpResponse 200 (Ok Sample.ack_ok)))
                    Sample.world).2 !! 1
  = Some (Some "Missing job details").
Proof.
  destruct (undeliverable_job_is_requeued default_config Sample.no_repr
              (Sample.env_of (HttpResponse 200 (Ok Sample.ack_ok))) (mkRow 1 11 1)
              Sample.world "Missing job details") as (_ & _ & Hjobs);
    [reflexivity | left; split; reflexivity |].
  cbn [row_id] in Hjobs. rewrite Hjobs. reflexivity.
Defined.

(** X11: a delivery that fails.  With the database answering and a channel
    in the snapshot: if the message cannot be rendered, or no token is
    configured, nothing is sent; if Slack's answer is refused the request has
    been sent once.  In each case the job goes through
    [requeue_with_backoff] with its stored count and the text of the
    exception. *)
Theorem failed_delivery_is_requeued (cfg : Config) (py_repr : json -> string)
    (env : Env) (row : ClaimedRow) (w : World) (d : Details) (channel e : string) :
  (forall t, db_fault env t = None) ->
  fetch_job_details (row_id row) (jobs w) (todos w) (users w) = Some d ->
  d_slack_channel d = Some channel ->
  channel <> "" ->
  (_format_message py_repr d = Raise e ->
   outbox (process_job cfg py_repr row env w).2 = outbox w
   /\ exists t,
        jobs (process_job cfg py_repr row env w).2
        = requeue_with_backoff cfg t (row_id row)
            (get_retry_count (row_id row) (jobs w)) e (jobs w))
  /\ (forall text,
        _format_message py_repr d = Ok text ->
        SLACK_BOT_TOKEN cfg = "" ->
        outbox (process_job cfg py_repr row env w).2 = outbox w
        /\ exists t,
             jobs (process_job cfg py_repr row env w).2
             = requeue_with_backoff cfg t (row_id row)
                 (get_retry_count (row_id row) (jobs w))
                 "SLACK_BOT_TOKEN is not configured" (jobs w))
  /\ (forall text,
        _format_message py_repr d = Ok text ->
        SLACK_BOT_TOKEN cfg <> "" ->
        check_ack py_repr (http_at env (S (tick w))) = Raise e ->
        outbox (process_job cfg py_repr row env w).2
        = outbox w ++ [(channel, text)]
        /\ exists t,
             jobs (process_job cfg py_repr row env w).2
             = requeue_with_backoff cfg t (row_id row)
                 (get_retry_count (row_id row) (jobs w)) e (jobs w)).
Proof.
  intros Hdb Hd Hch Hne. destruct channel as [|c channel]; [contradiction|].
  rewrite (process_job_with_channel cfg py_repr env Hdb row w d c channel Hd Hch).
  split; [|split].
  - intros ->. rewrite run_handle_failure by exact Hdb. cbn. eauto.
  - intros text -> Htoken. unfold post_to_slack, raise. rewrite Htoken.
    rewrite run_handle_failure by exact Hdb. cbn. eauto.
  - intros text -> Htoken Hack. unfold post_to_slack.
    destruct (SLACK_BOT_TOKEN cfg) as [|c0 token]; [contradiction|].
    cbn [tick next_tick]. rewrite Hack.
    rewrite run_handle_failure by exact Hdb. cbn. eauto.
Qed.

Lemma failed_delivery_is_requeued_witness :
  error <$> jobs (process_job default_config Sample.no_repr (mkRow 2 12 1)
                    (Sample.env_of (HttpRaise "timed out")) Sample.world).2 !! 2
  = Some (Some "timed out").
Proof.
  destruct (failed_delivery_is_requeued default_config Sample.no_repr
              (Sample.env_of (HttpRaise "timed out")) (mkRow 2 12 1) Sample.world
              (mkDetails 2 12 "Submit report" (Some Sample.report_due) JNull 1 (Some "C042"))
              "C042" "timed out") as (_ & _ & Hsent);
    [reflexivity | reflexivity | reflexivity | discriminate |].
  destruct (Hsent _ eq_refl) as (_ & t & Hjobs); [discriminate | reflexivity |].
  cbn [row_id] in Hjobs. rewrite Hjobs. reflexivity.
Defined.

Section Settled.

Variable cfg : Config.
Variable py_repr : json -> string.
Variable env : Env.
Hypothesis db_up : forall t, db_fault env t = None.

(** With the database answering, [process_job] ends in one update of the
    job's row: [mark_sent], or [requeue_with_backoff] with the stored count. *)
Lemma process_job_outcome row w :
  exists t,
    jobs (process_job cfg py_repr row env w).2 = mark_sent t (row_id row) (jobs w)
    \/ exists e,
         jobs (process_job cfg py_repr row env w).2
         = requeue_with_backoff cfg t (row_id row)
             (get_retry_count (row_id row) (jobs w)) e (jobs w).
Proof.
  destruct (fetch_job_details (row_id row) (jobs w) (todos w) (users w)) as [d|] eqn:Hd.
  - destruct (d_slack_channel d) as [[|c channel]|] eqn:Hch.
    + rewrite (process_job_data_error cfg py_repr env db_up row w "Missing slack_channel")
        by (right; exists d; auto). cbn. eauto.
    + rewrite (process_job_with_channel cfg py_repr env db_up row w d c channel Hd Hch).
      destruct (_format_message py_repr d) as [text|e].
      * unfold post_to_slack, raise. destruct (SLACK_BOT_TOKEN cfg).
        { rewrite run_handle_failure by exact db_up. cbn. eauto. }
        destruct (check_ack py_repr (http_at env (tick (next_tick w)))) as [[]|e].
        { rewrite run_mark_sent by exact db_up. cbn. eauto. }
        rewrite run_handle_failure by exact db_up. cbn. eauto.
      * rewrite run_handle_failure by exact db_up. cbn. eauto.
    + rewrite (process_job_data_error cfg py_repr env db_up row w "Missing slack_channel")
        by (right; exists d; auto). cbn. eauto.
  - rewrite (process_job_data_error cfg py_repr env db_up row w "Missing job details")
      by (left; auto). cbn. eauto.
Qed.

Lemma settled_by_mark_sent t id (st : gmap Z Job) j :
  st !! id = Some j ->
  exists j', mark_sent t id st !! id = Some j' /\ status j' <> Processing.
Proof. intros Hj. rewrite mark_sent_lookup, Hj. eexists. split; [reflexivity | discriminate]. Qed.

Lemma settled_by_requeue t id r e (st : gmap Z Job) j :
  st !! id = Some j ->
  exists j', requeue_with_backoff cfg t id r e st !! id = Some j' /\ status j' <> Processing.
Proof.
  intros Hj. rewrite requeue_lookup, Hj.
  destruct (r + 1 >=? MAX_RETRIES cfg); eexists; (split; [reflexivity | discriminate]).
Qed.

Lemma process_job_settles row w j :
  jobs w !! row_id row = Some j ->
  exists j', jobs (process_job cfg py_repr row env w).2 !! row_id row = Some j'
             /\ status j' <> Processing.
Proof.
  intros Hj. destruct (process_job_outcome row w) as (t & [-> | (e & ->)]).
  - now apply (settled_by_mark_sent t _ _ j).
  - now apply (settled_by_requeue t _ _ e _ j).
Qed.

Lemma process_job_other row w id :
  id <> row_id row -> jobs (process_job cfg py_repr row env w).2 !! id = jobs w !! id.
Proof.
  intros Hne. destruct (process_job cfg py_repr row env w) as [r w'] eqn:Hrun.
  exact (keeps_process_job cfg py_repr row env w r w' Hrun id Hne).
Qed.

Lemma process_jobs_settle rows : forall w,
  NoDup (row_id <$> rows) ->
  (forall row, row ∈ rows -> is_Some (jobs w !! row_id row)) ->
  forall row, row ∈ rows ->
    exists j',
      jobs (foldl (fun w0 r => (process_job cfg py_repr r env w0).2) w rows) !! row_id row
      = Some j'
      /\ status j' <> Processing.
Proof.
  induction rows as [|r rows IH]; intros w Hnodup Hrows row Hin.
  - now apply elem_of_nil in Hin.
  - rewrite fmap_cons in Hnodup. apply NoDup_cons in Hnodup as [Hfresh Hnodup].
    simpl. set (w1 := (process_job cfg py_repr r env w).2).
    assert (Hrows1 : forall x, x ∈ rows -> is_Some (jobs w1 !! row_id x)).
    { intros x Hx. unfold w1. rewrite process_job_other.
      - apply Hrows. now right.
      - intros Heq. apply Hfresh. rewrite <- Heq. apply list_elem_of_fmap. eauto. }
    apply elem_of_cons in Hin as [-> | Hin]; [|now apply IH].
    destruct (Hrows r) as [j Hj]; [left|].
    destruct (process_job_settles r w j Hj) as (j' & Hj' & Hs). exists j'. split; [|exact Hs].
    pose proof (for_each_process_job cfg py_repr rows env w1) as Hloop.
    rewrite (keeps_process_jobs cfg py_repr rows env w1 _ _ Hloop (row_id r) Hfresh).
    exact Hj'.
Qed.

End Settled.

(** X12: when every round trip to the database goes through, a batch leaves
    none of the jobs it claimed in [processing]: each one ends [sent],
    [pending] again or [failed], whatever Slack answered. *)
Theorem batch_leaves_no_job_processing (cfg : Config) (py_repr : json -> string)
    (env : Env) (w w1 : World) (rows : list ClaimedRow) :
  (forall t, db_fault env t = None) ->
  claim_jobs_io cfg (MAX_BATCH cfg) env w = (Ok rows, w1) ->
  forall row, row ∈ rows ->
    exists j',
      jobs (process_batch cfg py_repr env w).2 !! row_id row = Some j'
      /\ (status j' = Sent \/ status j' = Pending \/ status j' = Failed).
Proof.
  intros Hdb Hio row Hin.
  rewrite (process_batch_run cfg py_repr env w rows w1 Hio). cbn [snd].
  destruct (claim_jobs_io_cases cfg _ _ _ _ _ Hio) as [[_ [e He]] | (rows' & Hr & Hclaim)];
    [discriminate|].
  injection Hr as <-.
  destruct (process_jobs_settle cfg py_repr env Hdb rows w1) with (row := row)
    as (j' & Hj' & Hs); [| |exact Hin|].
  - pose proof Hclaim as Hinv. apply claim_jobs_inv in Hinv as (_ & Hids & _).
    rewrite Hids. apply claim_cte_NoDup.
  - intros x Hx.
    destruct (claim_jobs_claimed _ _ _ _ _ _ _ _ (row_id x) Hclaim) as (j & _ & _ & Hj).
    { apply list_elem_of_fmap. eauto. }
    rewrite Hj. eauto.
  - exists j'. split; [exact Hj'|]. destruct (status j'); auto. contradiction.
Qed.

Lemma batch_leaves_no_job_processing_witness :
  exists j',
    jobs (process_batch default_config Sample.no_repr
            (Sample.env_of (HttpResponse 200 (Ok Sample.ack_not_ok))) Sample.world).2 !! 2
    = Some j'
    /\ (status j' = Sent \/ status j' = Pending \/ status j' = Failed).
Proof.
  apply (batch_leaves_no_job_processing default_config Sample.no_repr
           (Sample.env_of (HttpResponse 200 (Ok Sample.ack_not_ok))) Sample.world
           (set_jobs (next_tick Sample.world)
              (alter (claim_row default_config 1000) 1
                 (alter (claim_row default_config 1000) 2 Sample.queue)))
           [mkRow 1 11 1; mkRow 2 12 1] ltac:(reflexivity) ltac:(vm_compute; reflexivity)
           (mkRow 2 12 1)).
  right. left.
Defined.


(** X13: a failure that cannot be recorded.  When the [try] block raises
    and one of the handler's two round trips raises too, [process_job]
    swallows both: it returns, the table is what it was before the job was
    processed, and a job that was [processing] stays [processing]. *)
Theorem unrecorded_failure_leaves_job_processing (cfg : Config)
    (py_repr : json -> string) (env : Env) (row : ClaimedRow) (w w1 : World)
    (e e1 : string) :
  attempt_job cfg py_repr (row_id row) env w = (Raise e, w1) ->
  db_fault env (tick w1) = Some e1
  \/ (db_fault env (tick w1) = None /\ db_fault env (S (tick w1)) = Some e1) ->
  (process_job cfg py_repr row env w).1 = Ok tt
  /\ jobs (process_job cfg py_repr row env w).2 = jobs w.
Proof.
  intros Hraise Hfault. unfold process_job, try_except. rewrite Hraise.
  destruct (handle_failure_swallows cfg (row_id row) e env w1 e1 Hfault) as [Hok Hjobs].
  split; [exact Hok|]. rewrite Hjobs. exact (attempt_raise_keeps_jobs _ _ _ _ _ _ _ Hraise).
Qed.

Lemma unrecorded_failure_leaves_job_processing_witness :
  jobs (process_job default_config Sample.no_repr (mkRow 6 12 1) Sample.db_down
          Sample.stale_world).2 !! 6
  = Some Sample.stale.
Proof.
  destruct (unrecorded_failure_leaves_job_processing default_config Sample.no_repr
              Sample.db_down (mkRow 6 12 1) Sample.stale_world
              (next_tick Sample.stale_world) "connection is closed" "connection is closed")
    as (_ & Hjobs); [reflexivity | left; reflexivity |].
  rewrite Hjobs. reflexivity.
Defined.

(** ** Batches that claim nothing *)

(** X14: an exception raised by the claim (the database cannot be reached,
    or the limit is refused) is not caught in [process_batch]: the call
    raises it, having changed no row and sent nothing. *)
Theorem claim_failure_leaves_process_batch (cfg : Config) (py_repr : json -> string)
    (env : Env) (w : World) (e : string) :
  db_fault env (tick w) = Some e
  \/ (db_fault env (tick w) = None /\ MAX_BATCH cfg < 0
      /\ e = "LIMIT must not be negative") ->
  (process_batch cfg py_repr env w).1 = Raise e
  /\ jobs (process_batch cfg py_repr env w).2 = jobs w
  /\ outbox (process_batch cfg py_repr env w).2 = outbox w.
Proof.
  intros Hcase.
  assert (Hio : exists w1, claim_jobs_io cfg (MAX_BATCH cfg) env w = (Raise e, w1)
                           /\ jobs w1 = jobs w /\ outbox w1 = outbox w).
  { unfold claim_jobs_io, db_round_trip. destruct Hcase as [-> | (-> & Hneg & ->)].
    - eexists. repeat split.
    - unfold claim_jobs. rewrite (proj2 (Z.ltb_lt _ _)) by exact Hneg.
      eexists. repeat split. }
  destruct Hio as (w1 & Hio & Hjobs & Hout).
  rewrite (process_batch_claim_fails cfg py_repr env w e w1 Hio). auto.
Qed.

Lemma claim_failure_leaves_process_batch_witness :
  (process_batch default_config Sample.no_repr Sample.db_down Sample.world).1
  = Raise "connection is closed".
Proof.
  apply (claim_failure_leaves_process_batch default_config Sample.no_repr Sample.db_down
           Sample.world "connection is closed").
  left. reflexivity.
Defined.

(** X15: when the claim goes through and no job qualifies, [process_batch]
    returns 0 after that one round trip: no row is changed and nothing is
    sent. *)
Theorem idle_batch_returns_zero (cfg : Config) (py_repr : json -> string)
    (env : Env) (w : World) :
  db_fault env (tick w) = None ->
  0 <= MAX_BATCH cfg ->
  (forall id j, jobs w !! id = Some j -> ~ claimable (now_at env (tick w)) j) ->
  process_batch cfg py_repr env w = (Ok 0, next_tick w).
Proof.
  intros Hdb Hlim Hnone.
  assert (Hcte : claim_cte (locked_at env (tick w)) (plan_at env (tick w)) (now_at env (tick w)) (MAX_BATCH cfg)
                   (jobs w) = []).
  { apply claim_cte_no_candidates. intros id j Hj.
    destruct (eligible (now_at env (tick w)) j) eqn:E; [|reflexivity].
    apply eligible_claimable in E. now destruct (Hnone id j Hj). }
  assert (Hio : claim_jobs_io cfg (MAX_BATCH cfg) env w = (Ok [], next_tick w)).
  { unfold claim_jobs_io, db_round_trip. rewrite Hdb. cbn [jobs next_tick].
    rewrite claim_jobs_ok by exact Hlim. rewrite Hcte. cbn [fmap list_fmap].
    f_equal. destruct w as [js ts us ob tk]. unfold set_jobs, next_tick. cbn. f_equal.
    apply map_eq. intros i. rewrite map_lookup_imap. destruct (js !! i); reflexivity. }
  rewrite (process_batch_run cfg py_repr env w [] (next_tick w) Hio). reflexivity.
Qed.

Lemma idle_batch_returns_zero_witness :
  process_batch default_config Sample.no_repr
    (Sample.env_of (HttpResponse 200 (Ok Sample.ack_ok))) Sample.stale_only
  = (Ok 0, next_tick Sample.stale_only).
Proof.
  apply idle_batch_returns_zero; [reflexivity | simpl; lia |].
  intros id j Hj (Hpending & _).
  destruct (decide (id = 6)) as [->|Hne].
  - injection Hj as <-. discriminate.
  - unfold Sample.stale_only in Hj. cbn [jobs] in Hj.
    rewrite lookup_insert_ne in Hj by congruence. now rewrite lookup_empty in Hj.
Defined.

(** ** The dispatch loop *)

Section Dispatch.

Variable cfg : Config.
Variable py_repr : json -> string.
Variable F : Type.
Variables INITIAL MIN MAX : F.
Variable mul_1_5 : F -> F.
Variable flt : F -> F -> bool.
Variable fne : F -> F -> bool.

(** While fewer than two empty batches in a row have been seen, the
    interval is one of its two base values. *)
Let calm (s : Polling F) : Prop :=
  0 <= consecutive_empty_batches s
  /\ (consecutive_empty_batches s < 2 ->
      current_poll_interval s = MIN \/ current_poll_interval s = INITIAL).

Lemma calm_initial : calm (initial_polling F INITIAL).
Proof. split; simpl; [lia | auto]. Qed.

Lemma calm_after_wait notified s : calm s -> calm (after_wait F MIN notified s).
Proof. intros Hs. destruct notified; [split; simpl; [lia | auto] | exact Hs]. Qed.

Lemma calm_adjust processed s :
  calm s -> calm (adjust_polling F MIN MAX mul_1_5 flt fne processed s).
Proof.
  intros [Hpos Hbase]. unfold adjust_polling.
  destruct (processed =? 0); [|split; simpl; [lia | auto]].
  cbv zeta. destruct (Z.geb_spec (consecutive_empty_batches s + 1) 2).
  - destruct (fne _ _); split; simpl; lia.
  - split; simpl; [lia|]. intros _. apply Hbase. lia.
Qed.

Lemma main_loop_calm waits : forall s env w s' w',
  calm s ->
  main_loop cfg py_repr F MIN MAX mul_1_5 flt fne waits s env w = (Ok s', w') ->
  calm s'.
Proof.
  induction waits as [|notified waits IH]; intros s env w s' w' Hs Hrun.
  - injection Hrun as <- _. exact Hs.
  - simpl in Hrun. unfold bind at 1, main_iteration, bind, ret in Hrun.
    destruct (process_batch cfg py_repr env w) as [[processed|e] w1]; [|discriminate].
    eapply IH; [|exact Hrun]. apply calm_adjust, calm_after_wait, Hs.
Qed.

End Dispatch.

(** X16: the poll interval of the dispatch loop.  A batch that processed
    jobs puts the interval back to its minimum and the count of empty
    batches to 0, and so does a notification before the batch.  After any
    number of iterations the count is not negative, and as long as it is
    below 2 the interval is the minimum or the initial one: only a second
    empty batch in a row, with no notification between, can raise it.  This
    holds whatever the float operations give. *)
Theorem poll_interval_grows_only_when_idle (cfg : Config) (py_repr : json -> string)
    (F : Type) (INITIAL MIN MAX : F) (mul_1_5 : F -> F) (flt fne : F -> F -> bool) :
  (forall processed s,
     processed <> 0 ->
     adjust_polling F MIN MAX mul_1_5 flt fne processed s = mkPolling MIN 0)
  /\ (forall s,
        adjust_polling F MIN MAX mul_1_5 flt fne 0 (after_wait F MIN true s)
        = mkPolling MIN 1)
  /\ (forall waits env w s' w',
        main_loop cfg py_repr F MIN MAX mul_1_5 flt fne waits (initial_polling F INITIAL) env w
        = (Ok s', w') ->
        0 <= consecutive_empty_batches s'
        /\ (consecutive_empty_batches s' < 2 ->
            current_poll_interval s' = MIN \/ current_poll_interval s' = INITIAL)).
Proof.
  split; [|split].
  - intros processed s Hp. unfold adjust_polling.
    destruct (Z.eqb_spec processed 0); [contradiction | reflexivity].
  - intros s. reflexivity.
  - intros waits env w s' w' Hrun.
    exact (main_loop_calm cfg py_repr F INITIAL MIN MAX mul_1_5 flt fne waits _ env w s' w'
             (calm_initial F INITIAL MIN) Hrun).
Qed.

Lemma poll_interval_grows_only_when_idle_witness :
  adjust_polling Q (5 # 1) (43200 # 1) Sample.q_mul_1_5 Sample.q_lt Sample.q_ne 3
    (mkPolling (45 # 4) 3)
  = mkPolling (5 # 1) 0.
Proof.
  apply (poll_interval_grows_only_when_idle default_config Sample.no_repr Q (5 # 1) (5 # 1)
           (43200 # 1) Sample.q_mul_1_5 Sample.q_lt Sample.q_ne).
  discriminate.
Defined.

(** X17: the dispatch loop ends with the first exception of a claim: an
    iteration whose claim raises returns no new state, and the iterations
    after it are not run. *)
Theorem main_loop_stops_when_claim_raises (cfg : Config) (py_repr : json -> string)
    (F : Type) (MIN MAX : F) (mul_1_5 : F -> F) (flt fne : F -> F -> bool)
    (notified : bool) (waits : list bool) (s : Polling F) (env : Env) (w : World)
    (e : string) :
  db_fault env (tick w) = Some e ->
  main_loop cfg py_repr F MIN MAX mul_1_5 flt fne (notified :: waits) s env w
  = (Raise e, next_tick w).
Proof.
  intros Hfault. simpl. unfold bind at 1, main_iteration, bind.
  assert (Hio : claim_jobs_io cfg (MAX_BATCH cfg) env w = (Raise e, next_tick w)).
  { unfold claim_jobs_io, db_round_trip. now rewrite Hfault. }
  rewrite (process_batch_claim_fails cfg py_repr env w e _ Hio). reflexivity.
Qed.

Lemma main_loop_stops_when_claim_raises_witness :
  main_loop default_config Sample.no_repr Q (5 # 1) (43200 # 1) Sample.q_mul_1_5
    Sample.q_lt Sample.q_ne [false; true; false] (initial_polling Q (5 # 1))
    Sample.db_down Sample.world
  = (Raise "connection is closed", next_tick Sample.world).
Proof. apply main_loop_stops_when_claim_raises. reflexivity. Defined.

(** ** Start-up *)

Lemma retry_delay_step k : Z.min (Z.min (2 ^ Z.of_nat k) 30 * 2) 30 = Z.min (2 ^ Z.of_nat (S k)) 30.
Proof.
  rewrite Nat2Z.inj_succ, Z.pow_succ_r by lia.
  pose proof (Z.pow_pos_nonneg 2 (Z.of_nat k)). lia.
Qed.

Lemma retry_create_pool_first_success {Pool} (attempts : nat -> Res Pool) (pool : Pool) :
  forall n k fuel slept,
    (forall i, (k <= i < k + n)%nat -> exists e, attempts i = Raise e) ->
    attempts (k + n)%nat = Ok pool ->
    (n < fuel)%nat ->
    retry_create_pool attempts fuel k (Z.min (2 ^ Z.of_nat k) 30) slept
    = Some (pool, slept ++ ((fun i => Z.min (2 ^ Z.of_nat i) 30) <$> seq k n)).
Proof.
  induction n as [|n IH]; intros k fuel slept Hfail Hok Hfuel;
    (destruct fuel as [|fuel]; [lia|]); simpl.
  - rewrite Nat.add_0_r in Hok. rewrite Hok, app_nil_r. reflexivity.
  - destruct (Hfail k) as [e He]; [lia|]. rewrite He.
    rewrite retry_delay_step, (IH (S k) fuel).
    + now rewrite <- app_assoc.
    + intros i Hi. apply Hfail. lia.
    + now replace (S k + n)%nat with (k + S n)%nat by lia.
    + lia.
Qed.

(** X18: pool creation at start-up.  When the first [n] calls of
    [create_pool] raise and the next one gives a pool, the loop returns that
    pool (given the time for [n + 1] calls) after sleeping
    [min (2^k) 30] seconds after the failure number [k]: 1, 2, 4, 8, 16, then
    30 each time. *)
Theorem create_pool_retries_with_capped_doubling {Pool} (attempts : nat -> Res Pool)
    (pool : Pool) (n fuel : nat) :
  (forall i, (i < n)%nat -> exists e, attempts i = Raise e) ->
  attempts n = Ok pool ->
  (n < fuel)%nat ->
  _create_pool_with_retry attempts fuel
  = Some (pool, (fun k => Z.min (2 ^ Z.of_nat k) 30) <$> seq 0 n)
  /\ Forall (fun d => 1 <= d <= 30) ((fun k => Z.min (2 ^ Z.of_nat k) 30) <$> seq 0 n).
Proof.
  intros Hfail Hok Hfuel. split.
  - unfold _create_pool_with_retry.
    exact (retry_create_pool_first_success attempts pool n 0 fuel []
             (fun i Hi => Hfail i ltac:(lia)) Hok Hfuel).
  - apply Forall_fmap, Forall_forall. intros k _. simpl.
    pose proof (Z.pow_pos_nonneg 2 (Z.of_nat k)). lia.
Qed.

Lemma create_pool_retries_with_capped_doubling_witness :
  _create_pool_with_retry Sample.third_time_lucky 4 = Some (7%nat, [1; 2; 4]).
Proof.
  apply (create_pool_retries_with_capped_doubling Sample.third_time_lucky 7%nat 3 4);
    [|reflexivity | lia].
  intros i Hi. exists "connection refused". unfold Sample.third_time_lucky.
  now rewrite (proj2 (Nat.ltb_lt i 3) Hi).
Defined.

(** ** Snapshots and what is rendered from them *)

(** X19: [fetch_job_details] gives no snapshot exactly when the job row, its
    todo or its user is missing; a snapshot carries the todo's description
    and due date and the user's channel, and its payload is null when the
    column is NULL or holds a text that is not JSON. *)
Theorem fetch_job_details_join (id : Z) (jobs : gmap Z Job) (todos : gmap Z Todo)
    (users : gmap Z User) :
  (fetch_job_details id jobs todos users = None
   <-> jobs !! id = None
       \/ exists s, jobs !! id = Some s
                    /\ (todos !! todo_id s = None \/ users !! user_id s = None))
  /\ (forall d, fetch_job_details id jobs todos users = Some d ->
        exists s t u,
          jobs !! id = Some s /\ todos !! todo_id s = Some t /\ users !! user_id s = Some u
          /\ d_reminder_id d = id /\ d_todo_id d = todo_id s /\ d_user_id d = user_id s
          /\ d_description d = description t
          /\ d_due_date d = due_date t
          /\ d_slack_channel d = slack_channel u
          /\ (payload t = PayloadNull \/ payload t = PayloadText None -> d_payload d = JNull)
          /\ (forall v, payload t = PayloadText (Some v) -> d_payload d = v)).
Proof.
  unfold fetch_job_details. split.
  - split.
    + destruct (jobs !! id) as [s|]; [|now left]. simpl.
      destruct (todos !! todo_id s) as [t|] eqn:Ht; [|right; eauto]. simpl.
      destruct (users !! user_id s) as [u|] eqn:Hu; [discriminate | right; eauto].
    + intros [-> | (s & -> & [Ht | Hu])]; [reflexivity | |]; simpl.
      * now rewrite Ht.
      * destruct (todos !! todo_id s); [|reflexivity]. simpl. now rewrite Hu.
  - intros d. destruct (jobs !! id) as [s|]; [|discriminate]. simpl.
    destruct (todos !! todo_id s) as [t|] eqn:Ht; [|discriminate]. simpl.
    destruct (users !! user_id s) as [u|] eqn:Hu; [|discriminate]. simpl.
    intros [= <-]. exists s, t, u. cbn.
    do 9 (split; [first [reflexivity | assumption]|]). split.
    + intros [-> | ->]; reflexivity.
    + intros v ->. reflexivity.
Qed.

Lemma fetch_job_details_join_witness :
  fetch_job_details 1 (jobs Sample.world) (todos Sample.world) (users Sample.world) = None.
Proof.
  apply fetch_job_details_join. right. exists Sample.due_late.
  split; [reflexivity | left; reflexivity].
Defined.

Section Plain.

Variable py_repr : json -> string.

Lemma job_field_plain (job : Details) key :
  (forall members, d_payload job = JObj members -> members = []) ->
  job_field job key = JNull.
Proof.
  intros Hplain. unfold job_field, payload_or_empty.
  destruct (d_payload job) as [| | | | | |members] eqn:Hp;
    try (destruct (truthy _); reflexivity).
  rewrite (Hplain members eq_refl). reflexivity.
Qed.

End Plain.

(** X20: a payload that is not a JSON object (null, a list, a string, a
    number, a boolean) and an empty object are ignored: when the due date
    renders, the message is the header, the description and the due date,
    and nothing raises. *)
Theorem payload_that_is_no_object_is_ignored (py_repr : json -> string) (job : Details)
    (due : string) :
  (forall members, d_payload job = JObj members -> members = []) ->
  due_text (d_due_date job) = Ok due ->
  _format_message py_repr job
  = Ok (String.concat newline
          ["📌 Todo Reminder"; "• Description: " +:+ d_description job; "• Due: " +:+ due]).
Proof.
  intros Hplain Hdue. unfold _format_message.
  rewrite (message_lines_eq py_repr job due "" Hdue).
  - rewrite !(job_field_plain job _ Hplain). reflexivity.
  - rewrite (job_field_plain job _ Hplain). discriminate.
Qed.

Lemma payload_that_is_no_object_is_ignored_witness :
  _format_message Sample.no_repr (Sample.report (JArr [JStr "work"; JStr "urgent"]))
  = Ok (String.concat newline
          ["📌 Todo Reminder"; "• Description: Submit report";
           "• Due: 2024-01-15 10:00 UTC"]).
Proof.
  apply (payload_that_is_no_object_is_ignored Sample.no_repr
           (Sample.report (JArr [JStr "work"; JStr "urgent"])) "2024-01-15 10:00 UTC");
    [discriminate | reflexivity].
Defined.

Lemma str_items_raises (items : list json) : forall i,
  (exists v, v ∈ items /\ forall s, v <> JStr s) ->
  exists e, str_items i items = Raise e.
Proof.
  induction items as [|x items IH]; intros i (v & Hin & Hv).
  - now apply elem_of_nil in Hin.
  - destruct x as [| | | |s| |]; simpl; eauto.
    apply elem_of_cons in Hin as [-> | Hin]; [now destruct (Hv s)|].
    destruct (IH (S i)) as [e He]; [eauto|]. rewrite He. eauto.
Qed.

(** X21: tags that cannot be joined make the rendering raise, so no message
    is produced: a non-empty list with a member that is not a string, and
    tags that are a number or [true]. *)
Theorem bad_tags_make_rendering_raise (py_repr : json -> string) (job : Details)
    (due : string) :
  due_text (d_due_date job) = Ok due ->
  (exists items v, job_field job "tags" = JArr items /\ v ∈ items /\ forall s, v <> JStr s)
  \/ (exists z, job_field job "tags" = JInt z /\ z <> 0)
  \/ job_field job "tags" = JBool true ->
  exists e, _format_message py_repr job = Raise e.
Proof.
  intros Hdue Hbad. unfold _format_message, message_lines. rewrite Hdue. cbv zeta.
  destruct Hbad as [(items & v & -> & Hin & Hv) | [(z & -> & Hz) | ->]].
  - assert (Ht : truthy (JArr items) = true).
    { destruct items; [now apply elem_of_nil in Hin | reflexivity]. }
    rewrite Ht. unfold join_tags.
    destruct (str_items_raises items 0) as [e He]; [eauto|]. rewrite He. eauto.
  - simpl. destruct (Z.eqb_spec z 0); [contradiction|]. simpl. eauto.
  - simpl. eauto.
Qed.

Lemma bad_tags_make_rendering_raise_witness :
  exists e,
    _format_message Sample.no_repr
      (Sample.report (JObj [("tags", JArr [JStr "work"; JInt 7])])) = Raise e.
Proof.
  apply (bad_tags_make_rendering_raise Sample.no_repr
           (Sample.report (JObj [("tags", JArr [JStr "work"; JInt 7])]))
           "2024-01-15 10:00 UTC"); [reflexivity|].
  left. exists [JStr "work"; JInt 7], (JInt 7).
  split; [reflexivity|]. split; [right; left | discriminate].
Defined.

(** X22: tags that are one string are joined character by character, and
    tags that are an object by their keys: the tags line is what
    [', '.join] makes of them. *)
Theorem tags_that_are_no_list (py_repr : json -> string) (job : Details) (due : string) :
  due_text (d_due_date job) = Ok due ->
  (forall s, s <> "" -> job_field job "tags" = JStr s ->
     exists lines,
       message_lines py_repr job = Ok lines
       /\ lines !! 3%nat = Some ("• Tags: " +:+ String.concat ", " (chars s)))
  /\ (forall k v members, job_field job "tags" = JObj ((k, v) :: members) ->
        exists lines,
          message_lines py_repr job = Ok lines
          /\ lines !! 3%nat
             = Some ("• Tags: " +:+ String.concat ", " (k :: members.*1))).
Proof.
  intros Hdue. split.
  - intros s Hs Htags.
    rewrite (message_lines_eq py_repr job due (String.concat ", " (chars s)) Hdue)
      by (rewrite Htags; reflexivity).
    eexists. split; [reflexivity|]. rewrite Htags.
    destruct s; [contradiction | reflexivity].
  - intros k v members Htags.
    rewrite (message_lines_eq py_repr job due (String.concat ", " (k :: members.*1)) Hdue)
      by (rewrite Htags; reflexivity).
    eexists. split; [reflexivity|]. rewrite Htags. reflexivity.
Qed.

Lemma tags_that_are_no_list_witness :
  exists lines,
    message_lines Sample.no_repr (Sample.report (JObj [("tags", JStr "ab")])) = Ok lines
    /\ lines !! 3%nat = Some "• Tags: a, b".
Proof.
  destruct (tags_that_are_no_list Sample.no_repr
              (Sample.report (JObj [("tags", JStr "ab")])) "2024-01-15 10:00 UTC")
    as (Hstr & _); [reflexivity|].
  apply (Hstr "ab"); [discriminate | reflexivity].
Defined.

(** ** How many jobs a claim takes *)

Lemma map_to_list_filter_length (P : Z * Job -> Prop) `{!forall x, Decision (P x)}
    (st : gmap Z Job) :
  length (filter P (map_to_list st)) = size (filter P st).
Proof.
  rewrite <- length_map_to_list. apply Permutation_length, NoDup_Permutation.
  - apply NoDup_filter, NoDup_map_to_list.
  - apply NoDup_map_to_list.
  - intros [i j]. rewrite list_elem_of_filter, !elem_of_map_to_list, map_lookup_filter_Some.
    tauto.
Qed.

(** X23: a claim takes as many jobs as it can: the number of rows returned
    is the smaller of the limit and the number of rows that qualify (pending,
    due, under no running lease, not locked by another transaction). *)
Theorem claim_jobs_takes_all_it_can (cfg : Config) (locked : Z -> bool) (plan : Plan)
    (now limit : Z) (st st' : gmap Z Job) (rows : list ClaimedRow) :
  claim_jobs cfg locked plan now limit st = Ok (rows, st') ->
  Z.of_nat (length rows)
  = Z.min limit
      (Z.of_nat (size (filter (fun r => eligible now r.2 && negb (locked r.1)) st))).
Proof.
  intros Hclaim. apply claim_jobs_inv in Hclaim as (Hlim & Hids & _).
  assert (Hlen : length rows = length (claim_cte locked plan now limit st)).
  { rewrite <- (length_fmap row_id rows), (Permutation_length Hids). apply length_fmap. }
  rewrite Hlen. unfold claim_cte.
  rewrite length_take, !(Permutation_length (merge_sort_Permutation _ _)),
    map_to_list_filter_length. lia.
Qed.

Lemma claim_jobs_takes_all_it_can_witness :
  Z.of_nat (length [mkRow 2 12 1])
  = Z.min 1
      (Z.of_nat (size (filter (fun r => eligible 1000 r.2 && negb (Sample.unlocked r.1))
                         Sample.queue))).
Proof.
  apply (claim_jobs_takes_all_it_can default_config Sample.unlocked Sample.by_id 1000 1
           Sample.queue
           (alter (claim_row default_config 1000) 2 Sample.queue) [mkRow 2 12 1]).
  vm_compute. reflexivity.
Defined.
